(** * Supalytics: the visualiser's streamed-response decoder

    A shallow embedding of [extractSection] and [sendMessage] of
    [src/components/visualiser/VisualiserUI.tsx], and the properties of the
    segment extraction, of the routing of sections into a notebook entry and
    of the entry's life cycle.  The handlers of the same component that act
    on the notebooks and the entries, [formatHeader] of [TableVisual] and the
    scroll handler of the navigation bar are embedded as well.

    Conventions of the model.
    - A JavaScript string is a sequence of UTF-16 code units; the model keeps
      the code units below 256, which is Rocq's [string] of [ascii].  The
      operations used by the source on the streamed text ([indexOf],
      [substring], [trim], [length]) work code unit by code unit.
    - [toUpperCase] and [toLowerCase] are given on the ASCII letters and
      leave every other code unit alone.  The decoder applies them to the
      values of the [OutputType] enumeration only, which are ASCII
      identifiers; the properties of [formatHeader], which applies them to
      column names, are stated for ASCII names.
    - Indices are [Z], as the source compares them with [-1].
    - [sendMessage] is asynchronous and talks to a remote store and to the
      network: what these answer is collected in a record of type [World],
      and React's state is threaded explicitly as a record [UIState]. *)

From Stdlib Require Import ZArith Lia Bool List Ascii String.
From Stdlib Require QArith.
Import ListNotations.

Open Scope string_scope.
Open Scope list_scope.
Open Scope Z_scope.

(** ** JavaScript string primitives *)

Module JS.

Definition isUpper (c : ascii) : bool :=
  let n := nat_of_ascii c in (65 <=? n)%nat && (n <=? 90)%nat.

Definition isLower (c : ascii) : bool :=
  let n := nat_of_ascii c in (97 <=? n)%nat && (n <=? 122)%nat.

Definition upperChar (c : ascii) : ascii :=
  if isLower c then ascii_of_nat (nat_of_ascii c - 32) else c.

Definition lowerChar (c : ascii) : ascii :=
  if isUpper c then ascii_of_nat (nat_of_ascii c + 32) else c.

Fixpoint mapChars (f : ascii -> ascii) (s : string) : string :=
  match s with
  | EmptyString => EmptyString
  | String c s' => String (f c) (mapChars f s')
  end.

(** [String.prototype.toUpperCase] and [toLowerCase]. *)
Definition toUpperCase (s : string) : string := mapChars upperChar s.
Definition toLowerCase (s : string) : string := mapChars lowerChar s.

(** [text.indexOf(pattern, fromIndex)]: the first index at or after
    [fromIndex] (clamped to [0 .. text.length]) at which [pattern] occurs,
    [-1] when there is none. *)
Definition indexOf (text pattern : string) (fromIndex : Z) : Z :=
  let from := Nat.min (Z.to_nat fromIndex) (length text) in
  match index from pattern text with
  | Some i => Z.of_nat i
  | None => -1
  end.

(** [text.substring(indexStart, indexEnd)]: both indices are clamped to
    [0 .. text.length] and swapped when they come in the wrong order. *)
Definition substring (text : string) (indexStart indexEnd : Z) : string :=
  let len := Z.of_nat (length text) in
  let a := Z.min (Z.max indexStart 0) len in
  let b := Z.min (Z.max indexEnd 0) len in
  let lo := Z.min a b in
  let hi := Z.max a b in
  String.substring (Z.to_nat lo) (Z.to_nat (hi - lo)) text.

(** White space of [String.prototype.trim] among the code units below 256:
    TAB, LF, VT, FF, CR, SPACE and NO-BREAK SPACE. *)
Definition isWhiteSpace (c : ascii) : bool :=
  let n := nat_of_ascii c in
  (n =? 9)%nat || (n =? 10)%nat || (n =? 11)%nat || (n =? 12)%nat
  || (n =? 13)%nat || (n =? 32)%nat || (n =? 160)%nat.

Fixpoint trimStart (s : string) : string :=
  match s with
  | EmptyString => EmptyString
  | String c s' => if isWhiteSpace c then trimStart s' else s
  end.

Fixpoint trimEnd (s : string) : string :=
  match s with
  | EmptyString => EmptyString
  | String c s' =>
      match trimEnd s' with
      | EmptyString => if isWhiteSpace c then EmptyString else String c EmptyString
      | r => String c r
      end
  end.

Definition trim (s : string) : string := trimEnd (trimStart s).

End JS.

(** ** Data model *)

(** [interface Section { type: OutputType; content: string }].  ([Section] is
    a reserved word of Rocq, hence the name.) *)
Record SectionT : Type := mkSection {
  type : string;
  content : string
}.

(** A chunk of an output: [{ content, type }]. *)
Record Chunk : Type := mkChunk {
  chunk_content : string;
  chunk_type : string
}.

(** An output of a notebook entry: [{ version, chunks }]. *)
Record Output : Type := mkOutput {
  version : Z;
  chunks : list Chunk
}.

(** [NotebookEntry], with the fields [sendMessage] fills in. *)
Record NotebookEntry : Type := mkEntry {
  id : string;
  createdAt : string;
  notebookId : string;
  userPrompt : string;
  sqlQueries : list string;
  outputs : list Output
}.

(** [Notebook], with the fields [sendMessage] reads or writes. *)
Record Notebook : Type := mkNotebook {
  nb_id : string;
  nb_title : string;
  nb_projectId : string
}.

(** ** The collaborators and the state of [sendMessage] *)

(** What [await reader.read()] answers: a value, given here already
    decoded ([new TextDecoder().decode(value)], each read on its own), or
    a rejection.  The end of the list of reads is [done]. *)
Inductive ReadResult : Type :=
| ReadValue (message : string)
| ReadRejects.

(** What [await fetch(...)] answers: a rejection, or a response with its
    [ok] flag and its payload. *)
Inductive FetchResult (A : Type) : Type :=
| FetchRejects
| Response (ok : bool) (payload : A).
Arguments FetchRejects {A}.
Arguments Response {A} ok payload.

(** The answers of the collaborators of one call of [sendMessage]. *)
Record World : Type := mkWorld {
  v4_notebook : string;            (* [v4()] for the new notebook *)
  notebookInsertError : bool;      (* [error] of the insert into [notebooks] *)
  v4_entry : string;               (* [v4()] for the new entry *)
  now : string;                    (* [new Date().toISOString()] *)
  entryInsertError : bool;         (* [error] of the insert into [notebook_entries] *)
  searchResponse : FetchResult (option (list ReadResult));
                                   (* [response.body]: [None] is no stream *)
  titleResponse : FetchResult string
                                   (* [title] of the JSON answer, empty when absent *)
}.

(** The component's state that [sendMessage] reads and sets, and the
    notices handed to [notifications.show], oldest first. *)
Record UIState : Type := mkState {
  notebooks : list Notebook;
  selectedNotebookId : string;
  notebookEntries : list NotebookEntry;
  userSearch : string;
  isSendingMessage : bool;
  notifications : list string
}.

Definition setIsSendingMessage (b : bool) (st : UIState) : UIState :=
  mkState (notebooks st) (selectedNotebookId st) (notebookEntries st)
          (userSearch st) b (notifications st).

Definition setSelectedNotebookId (i : string) (st : UIState) : UIState :=
  mkState (notebooks st) i (notebookEntries st)
          (userSearch st) (isSendingMessage st) (notifications st).

Definition setNotebooks (f : list Notebook -> list Notebook) (st : UIState) : UIState :=
  mkState (f (notebooks st)) (selectedNotebookId st) (notebookEntries st)
          (userSearch st) (isSendingMessage st) (notifications st).

Definition setNotebookEntries (l : list NotebookEntry) (st : UIState) : UIState :=
  mkState (notebooks st) (selectedNotebookId st) l
          (userSearch st) (isSendingMessage st) (notifications st).

Definition setUserSearch (s : string) (st : UIState) : UIState :=
  mkState (notebooks st) (selectedNotebookId st) (notebookEntries st)
          s (isSendingMessage st) (notifications st).

Definition notifications_show (message : string) (st : UIState) : UIState :=
  mkState (notebooks st) (selectedNotebookId st) (notebookEntries st)
          (userSearch st) (isSendingMessage st) (notifications st ++ [message]).

(** How a call of the asynchronous [sendMessage] ends: it returns, or an
    awaited promise rejects and the rejection leaves the function. *)
Inductive Outcome : Type := Returned | Thrown.

(** In-place update of the last element of an array, [a[a.length - 1]].
    It is used on arrays that have an element: the outputs of
    [applyMessage], behind the push of the first output, and the entries of
    [readLoop], which tests for the empty array first. *)
Fixpoint updateLast {A : Type} (f : A -> A) (l : list A) : list A :=
  match l with
  | [] => []
  | [x] => [f x]
  | x :: l' => x :: updateLast f l'
  end.

Definition pushChunk (c : Chunk) (latestOutput : Output) : Output :=
  mkOutput (version latestOutput) (chunks latestOutput ++ [c]).

Section Decoder.

(** ** [extractSection] *)

(** [Object.values(OutputType)], in the order of declaration.  The
    enumeration is declared in [@/lib/global.types], outside the sources
    at hand, so the decoder takes it as a parameter. *)
Variable OutputType : list string.

(** The enumeration's member [OutputType.SQL]. *)
Variable OutputType_SQL : string.

(** [project.id] of the component's props. *)
Variable projectId : string.

Definition startMarkerOf (type : string) : string :=
  ("=====" ++ JS.toUpperCase type ++ "=====")%string.

Definition endMarkerOf (type : string) : string :=
  ("=====END " ++ JS.toUpperCase type ++ "=====")%string.

(** The body of the [for] loop of [extractSection] for one [type]:
    [None] stands for [continue], [Some] for the [return] of a section. *)
Definition extractType (text type : string) : option SectionT :=
  let startMarker := startMarkerOf type in
  let endMarker := endMarkerOf type in
  let startIndex := JS.indexOf text startMarker 0 in
  if startIndex =? -1 then None
  else
    let contentStartIndex := startIndex + Z.of_nat (length startMarker) in
    let endIndex := JS.indexOf text endMarker contentStartIndex in
    if endIndex =? -1 then None
    else
      Some {| type := JS.toLowerCase type;
              content := JS.trim (JS.substring text contentStartIndex endIndex) |}.

(** The [for (const type of allTypes)] loop: the first type that returns
    ends the scan; [return null] once the types are exhausted. *)
Fixpoint scanTypes (text : string) (allTypes : list string) : option SectionT :=
  match allTypes with
  | [] => None
  | type :: rest =>
      match extractType text type with
      | Some section => Some section
      | None => scanTypes text rest
      end
  end.

Definition extractSection (text : string) : option SectionT :=
  let allTypes := map JS.toUpperCase OutputType in
  scanTypes text allTypes.

(** ** [sendMessage] *)

(** The body of the [while] loop after the read, on [lastEntry]. *)
Definition applyMessage (message : string) (lastEntry : NotebookEntry) : NotebookEntry :=
  let outputs1 :=
    if (List.length (outputs lastEntry) =? 0)%nat
    then outputs lastEntry ++ [mkOutput 1 []]
    else outputs lastEntry in
  match extractSection message with
  | Some section =>
      if (type section =? OutputType_SQL)%string
      then mkEntry (id lastEntry) (createdAt lastEntry) (notebookId lastEntry)
                   (userPrompt lastEntry)
                   (sqlQueries lastEntry ++ [content section]) outputs1
      else
        let chunk :=
          mkChunk (if (content section =? "")%string then message else content section)
                  (type section) in
        mkEntry (id lastEntry) (createdAt lastEntry) (notebookId lastEntry)
                (userPrompt lastEntry)
                (sqlQueries lastEntry) (updateLast (pushChunk chunk) outputs1)
  | None =>
      mkEntry (id lastEntry) (createdAt lastEntry) (notebookId lastEntry)
              (userPrompt lastEntry) (sqlQueries lastEntry) outputs1
  end.

(** The [while (!done)] loop.  [localNotebookEntries] is the array the
    state holds since [setNotebookEntries(localNotebookEntries)]: what the
    loop does to its last entry is what the state shows.  On an array
    without entries [lastEntry] is [undefined] and reading
    [lastEntry.outputs] throws. *)
Fixpoint readLoop (reads : list ReadResult) (localNotebookEntries : list NotebookEntry)
  : list NotebookEntry * Outcome :=
  match reads with
  | [] => (localNotebookEntries, Returned)
  | ReadRejects :: _ => (localNotebookEntries, Thrown)
  | ReadValue message :: rest =>
      match localNotebookEntries with
      | [] => (localNotebookEntries, Thrown)
      | _ :: _ =>
          readLoop rest (updateLast (applyMessage message) localNotebookEntries)
      end
  end.

(** The title request that follows the stream. *)
Definition nameNotebook (w : World) (notebookId : string) (st : UIState)
  : UIState * Outcome :=
  match titleResponse w with
  | FetchRejects => (st, Thrown)
  | Response false _ => (notifications_show "Failed to generate title" st, Returned)
  | Response true title =>
      if (title =? "")%string then (st, Returned)
      else
        (setNotebooks
           (map (fun notebook =>
                   if (nb_id notebook =? notebookId)%string
                   then mkNotebook (nb_id notebook) title (nb_projectId notebook)
                   else notebook)) st,
         Returned)
  end.

(** [sendMessage] from the new entry on, once the notebook is known. *)
Definition sendEntry (w : World) (notebookId : string) (st : UIState)
  : UIState * Outcome :=
  let newNotebookEntry :=
    mkEntry (v4_entry w) (now w) notebookId (userSearch st) [] [] in
  let localNotebookEntries := notebookEntries st ++ [newNotebookEntry] in
  let st := setNotebookEntries localNotebookEntries st in
  if entryInsertError w then
    let st := notifications_show "Failed to create new notebook entry" st in
    let st := setIsSendingMessage false st in
    (setNotebookEntries (removelast localNotebookEntries) st, Returned)
  else
    let st := setUserSearch "" st in
    match searchResponse w with
    | FetchRejects => (st, Thrown)
    | Response false _ =>
        let st := notifications_show "Failed to send message" st in
        (setIsSendingMessage false st, Returned)
    | Response true None =>
        let st := notifications_show "Failed to get stream from response" st in
        (setIsSendingMessage false st, Returned)
    | Response true (Some reads) =>
        match readLoop reads localNotebookEntries with
        | (entries, Thrown) => (setNotebookEntries entries st, Thrown)
        | (entries, Returned) =>
            let st := setNotebookEntries entries st in
            let st := setIsSendingMessage false st in
            nameNotebook w notebookId st
        end
    end.

Definition sendMessage (w : World) (st : UIState) : UIState * Outcome :=
  if isSendingMessage st then (st, Returned)
  else
    let st := setIsSendingMessage true st in
    if (selectedNotebookId st =? "")%string then
      if notebookInsertError w then
        let st := notifications_show "Failed to create new notebook" st in
        (setIsSendingMessage false st, Returned)
      else
        let newNotebook := mkNotebook (v4_notebook w) "Untitled Notebook" projectId in
        let st := setSelectedNotebookId (nb_id newNotebook) st in
        let st := setNotebooks (fun notebooks => notebooks ++ [newNotebook]) st in
        sendEntry w (nb_id newNotebook) st
    else sendEntry w (selectedNotebookId st) st.

End Decoder.


(** Modelled from the spec: the values of the enumeration [OutputType] of
    [@/lib/global.types], which the spec lists as [sql], [text], [table] and
    [chart], in that order. *)
Definition OutputType_values : list string := ["sql"; "text"; "table"; "chart"].

(** Modelled from the spec: the member [OutputType.SQL], whose value is the
    string [sql]. *)
Definition OutputType_SQL_value : string := "sql".

(** ** Notions used to state the properties *)

(** [pattern] occurs in [text] at index [i]. *)
Definition occursAt (text pattern : string) (i : nat) : Prop :=
  String.substring i (String.length pattern) text = pattern.

(** For the type [v], [text] has no start marker, or no end marker at or
    after the end of its first start marker. *)
Definition unmatched (text v : string) : Prop :=
  JS.indexOf text (startMarkerOf v) 0 = -1
  \/ JS.indexOf text (endMarkerOf v)
       (JS.indexOf text (startMarkerOf v) 0 + Z.of_nat (String.length (startMarkerOf v))) = -1.

(** The start marker of [v] is in [text], its end marker is not behind it. *)
Definition startWithoutEnd (text v : string) : Prop :=
  JS.indexOf text (startMarkerOf v) 0 <> -1
  /\ JS.indexOf text (endMarkerOf v)
       (JS.indexOf text (startMarkerOf v) 0 + Z.of_nat (String.length (startMarkerOf v))) = -1.

(** No code unit of [s] is an upper-case letter. *)
Fixpoint noUpper (s : string) : bool :=
  match s with
  | EmptyString => true
  | String c s' => negb (JS.isUpper c) && noUpper s'
  end.

(** All the chunks of an entry, over its outputs, in order. *)
Definition allChunks (e : NotebookEntry) : list Chunk :=
  flat_map chunks (outputs e).

(** The messages a stream delivers before it ends or a read rejects. *)
Fixpoint delivered (reads : list ReadResult) : list string :=
  match reads with
  | ReadValue message :: rest => message :: delivered rest
  | _ => []
  end.

(** How the stream's reading ends. *)
Fixpoint readOutcome (reads : list ReadResult) : Outcome :=
  match reads with
  | [] => Returned
  | ReadRejects :: _ => Thrown
  | ReadValue _ :: rest => readOutcome rest
  end.

(** The statements a sequence of messages contributes, following the spec's
    routing rule: the content of each message's section of type SQL. *)
Definition routedSql (OutputType : list string) (SQL : string) (messages : list string)
  : list string :=
  flat_map (fun message =>
              match extractSection OutputType message with
              | Some section =>
                  if (type section =? SQL)%string then [content section] else []
              | None => []
              end) messages.

(** The chunks a sequence of messages contributes: one for each message's
    section of a type other than SQL. *)
Definition routedChunks (OutputType : list string) (SQL : string) (messages : list string)
  : list Chunk :=
  flat_map (fun message =>
              match extractSection OutputType message with
              | Some section =>
                  if (type section =? SQL)%string then []
                  else [mkChunk (if (content section =? "")%string
                                 then message else content section)
                                (type section)]
              | None => []
              end) messages.

(** The entry a stream of messages builds from [e]. *)
Definition streamEntry (OutputType : list string) (SQL : string)
  (messages : list string) (e : NotebookEntry) : NotebookEntry :=
  fold_left (fun entry message => applyMessage OutputType SQL message entry) messages e.

(** ** The other handlers of [VisualiserUI] *)

(** [onDeleteEntry] of an entry of the list:
    [setNotebookEntries(entries => entries.filter(x => x.id !== entry.id))]. *)
Definition onDeleteEntry (entryId : string) (st : UIState) : UIState :=
  setNotebookEntries
    (filter (fun x => negb (id x =? entryId)%string) (notebookEntries st)) st.

(** [onChange] of the title input: the notebooks whose id is the selected
    one take the new title. *)
Definition onTitleChange (newTitle : string) (st : UIState) : UIState :=
  setNotebooks
    (map (fun notebook =>
            if (nb_id notebook =? selectedNotebookId st)%string
            then mkNotebook (nb_id notebook) newTitle (nb_projectId notebook)
            else notebook)) st.

(** [value] of the title input: the title of the first notebook with the
    selected id, ['New Notebook'] when there is none. *)
Definition titleValue (st : UIState) : string :=
  match find (fun x => (nb_id x =? selectedNotebookId st)%string) (notebooks st) with
  | Some notebook => nb_title notebook
  | None => "New Notebook"
  end.

(** [onClick] of the button "Start New Notebook". *)
Definition startNewNotebook (st : UIState) : UIState :=
  setNotebookEntries [] (setSelectedNotebookId "" st).

(** [onClick] of the menu item "Delete Notebook": [confirmed] is the answer
    of [confirm(...)], [deleteError] the [error] of the delete in the store. *)
Definition deleteNotebook (confirmed deleteError : bool) (st : UIState) : UIState :=
  if confirmed then
    if deleteError then notifications_show "Failed to delete notebook" st
    else
      let st1 :=
        setNotebooks
          (filter (fun x => negb (nb_id x =? selectedNotebookId st)%string)) st in
      let st2 := setSelectedNotebookId "" st1 in
      setNotebookEntries [] st2
  else st.

(** ** [TableVisual]: the header of a column *)

Module TableVisual.

(** The separators of [header.split(/_|\.|\s/)]: underscore, dot, and the
    white space of [\s], which below 256 is the white space of [trim]. *)
Definition isSeparator (c : ascii) : bool :=
  (c =? "_")%char || (c =? ".")%char || JS.isWhiteSpace c.

(** [header.split(/_|\.|\s/)]: the pieces between the separators, empty
    pieces included; the empty string gives one empty piece. *)
Fixpoint split (header : string) : list string :=
  match header with
  | EmptyString => [EmptyString]
  | String c rest =>
      if isSeparator c then EmptyString :: split rest
      else
        match split rest with
        | word :: words => String c word :: words
        | [] => [String c EmptyString]
        end
  end.

(** [word.charAt(0)]. *)
Definition charAt0 (word : string) : string :=
  match String.get 0 word with
  | Some c => String c EmptyString
  | None => EmptyString
  end.

(** [word.slice(1)]. *)
Definition slice1 (word : string) : string :=
  String.substring 1 (String.length word - 1) word.

(** [formatHeader]: split, upper-case the first letter of each word, join
    with spaces. *)
Definition formatHeader (header : string) : string :=
  String.concat " "
    (map (fun word => (JS.toUpperCase (charAt0 word) ++ slice1 word)%string)
         (split header)).

(** Every code unit of [s] is below 128. *)
Fixpoint isAscii (s : string) : bool :=
  match s with
  | EmptyString => true
  | String c s' => (nat_of_ascii c <? 128)%nat && isAscii s'
  end.

(** No code unit of [s] is a separator. *)
Fixpoint noSeparator (s : string) : bool :=
  match s with
  | EmptyString => true
  | String c s' => negb (isSeparator c) && noSeparator s'
  end.

(** Every separator in [s] is a space. *)
Fixpoint onlySpaces (s : string) : bool :=
  match s with
  | EmptyString => true
  | String c s' => (negb (isSeparator c) || (c =? " ")%char) && onlySpaces s'
  end.

End TableVisual.

(** ** [HomepageNavbar]: the scroll handler *)

Module Navbar.

(** [classList.add(token)]: the token is appended unless it is there. *)
Definition classList_add (token : string) (classList : list string) : list string :=
  if existsb (String.eqb token) classList then classList
  else classList ++ [token].

(** [classList.remove(token)]. *)
Definition classList_remove (token : string) (classList : list string) : list string :=
  filter (fun t => negb (t =? token)%string) classList.

(** [handleScroll]: [scrollY] is [window.scrollY], [navRef_current] the
    class list of [navRef.current], [None] when the reference is [null]. *)
Definition handleScroll (scrollY : QArith_base.Q) (navRef_current : option (list string))
  : option (list string) :=
  if negb (QArith_base.Qle_bool scrollY (QArith_base.Qmake 0 1))
  then option_map (classList_add "border-b-[1px]") navRef_current
  else option_map (classList_remove "border-b-[1px]") navRef_current.

End Navbar.

(** ** Further notions used to state the properties *)

(** What [onTitleChange] and the title request do to one notebook. *)
Definition retitle (selected title : string) (notebook : Notebook) : Notebook :=
  if (nb_id notebook =? selected)%string
  then mkNotebook (nb_id notebook) title (nb_projectId notebook)
  else notebook.

(** [formatHeader] told in one pass over the header: a separator becomes a
    space, the first letter of the header and the letter behind a separator
    are upper-cased, every other code unit is kept. *)
Fixpoint scanHeader (atStart : bool) (header : string) : string :=
  match header with
  | EmptyString => EmptyString
  | String c rest =>
      if TableVisual.isSeparator c then String " " (scanHeader true rest)
      else String (if atStart then JS.upperChar c else c) (scanHeader false rest)
  end.

Definition firstChar (s : string) : option ascii := String.get 0 s.

Fixpoint lastChar (s : string) : option ascii :=
  match s with
  | EmptyString => None
  | String c EmptyString => Some c
  | String _ s' => lastChar s'
  end.

(** * Properties *)

(** ** The string primitives on examples *)

Example indexOf_examples :
  JS.indexOf "abcabc" "b" 0 = 1
  /\ JS.indexOf "abcabc" "b" 2 = 4
  /\ JS.indexOf "abcabc" "b" (-3) = 1
  /\ JS.indexOf "abc" "x" 0 = -1
  /\ JS.indexOf "abc" "c" 7 = -1
  /\ JS.indexOf "abc" "" 7 = 3.
Proof. repeat split; reflexivity. Qed.

Example substring_examples :
  JS.substring "hello" 1 3 = "el"
  /\ JS.substring "hello" 3 1 = "el"
  /\ JS.substring "hello" (-2) 2 = "he"
  /\ JS.substring "hello" 3 9 = "lo"
  /\ JS.substring "hello" 2 2 = "".
Proof. repeat split; reflexivity. Qed.

Example trim_examples :
  JS.trim "  a b  " = "a b"
  /\ JS.trim "   " = ""
  /\ JS.trim "" = ""
  /\ JS.trim "x" = "x".
Proof. repeat split; reflexivity. Qed.

Example case_examples :
  JS.toUpperCase "sql_1 Text" = "SQL_1 TEXT"
  /\ JS.toLowerCase "SQL_1 Text" = "sql_1 text".
Proof. split; reflexivity. Qed.

Example extract_sql :
  extractSection OutputType_values "=====SQL=====select 1=====END SQL====="
  = Some (mkSection "sql" "select 1").
Proof. reflexivity. Qed.

Example extract_trim :
  extractSection OutputType_values "xx=====TEXT=====  hi there
  =====END TEXT=====yy"
  = Some (mkSection "text" "hi there").
Proof. reflexivity. Qed.

(** ** Case maps *)

Lemma lowerChar_upperChar (c : ascii) : JS.lowerChar (JS.upperChar c) = JS.lowerChar c.
Proof. destruct c as [[] [] [] [] [] [] [] []]; reflexivity. Qed.

Lemma upperChar_lowerChar (c : ascii) : JS.upperChar (JS.lowerChar c) = JS.upperChar c.
Proof. destruct c as [[] [] [] [] [] [] [] []]; reflexivity. Qed.

Lemma upperChar_idem (c : ascii) : JS.upperChar (JS.upperChar c) = JS.upperChar c.
Proof. destruct c as [[] [] [] [] [] [] [] []]; reflexivity. Qed.

Lemma lowerChar_idem (c : ascii) : JS.lowerChar (JS.lowerChar c) = JS.lowerChar c.
Proof. destruct c as [[] [] [] [] [] [] [] []]; reflexivity. Qed.

Lemma mapChars_compose (f g : ascii -> ascii) (s : string) :
  JS.mapChars f (JS.mapChars g s) = JS.mapChars (fun c => f (g c)) s.
Proof. induction s as [|c s IH]; simpl; [reflexivity | now rewrite IH]. Qed.

Lemma mapChars_ext (f g : ascii -> ascii) (s : string) :
  (forall c, f c = g c) -> JS.mapChars f s = JS.mapChars g s.
Proof. intros E; induction s as [|c s IH]; simpl; [reflexivity | now rewrite E, IH]. Qed.

Lemma toLowerCase_toUpperCase (s : string) :
  JS.toLowerCase (JS.toUpperCase s) = JS.toLowerCase s.
Proof.
  unfold JS.toLowerCase, JS.toUpperCase. rewrite mapChars_compose.
  apply mapChars_ext, lowerChar_upperChar.
Qed.

Lemma toUpperCase_toLowerCase (s : string) :
  JS.toUpperCase (JS.toLowerCase s) = JS.toUpperCase s.
Proof.
  unfold JS.toLowerCase, JS.toUpperCase. rewrite mapChars_compose.
  apply mapChars_ext, upperChar_lowerChar.
Qed.

Lemma toUpperCase_idem (s : string) :
  JS.toUpperCase (JS.toUpperCase s) = JS.toUpperCase s.
Proof.
  unfold JS.toUpperCase. rewrite mapChars_compose.
  apply mapChars_ext, upperChar_idem.
Qed.

Lemma toLowerCase_idem (s : string) :
  JS.toLowerCase (JS.toLowerCase s) = JS.toLowerCase s.
Proof.
  unfold JS.toLowerCase. rewrite mapChars_compose.
  apply mapChars_ext, lowerChar_idem.
Qed.

Lemma startMarkerOf_upper (v : string) : startMarkerOf (JS.toUpperCase v) = startMarkerOf v.
Proof. unfold startMarkerOf. now rewrite toUpperCase_idem. Qed.

Lemma endMarkerOf_upper (v : string) : endMarkerOf (JS.toUpperCase v) = endMarkerOf v.
Proof. unfold endMarkerOf. now rewrite toUpperCase_idem. Qed.

(** ** The scan over the types *)

Lemma extractType_type (text v : string) (s : SectionT) :
  extractType text v = Some s -> type s = JS.toLowerCase v.
Proof.
  unfold extractType.
  destruct (_ =? -1); [discriminate|].
  destruct (_ =? -1); [discriminate|].
  intros E; injection E as <-; reflexivity.
Qed.

Lemma extractType_upper (text v : string) :
  extractType text (JS.toUpperCase v)
  = option_map (fun s => mkSection (JS.toLowerCase v) (content s)) (extractType text v).
Proof.
  unfold extractType. rewrite startMarkerOf_upper, endMarkerOf_upper.
  destruct (_ =? -1); [reflexivity|].
  destruct (_ =? -1); [reflexivity|].
  simpl. now rewrite toLowerCase_toUpperCase.
Qed.

Lemma extractType_unmatched (text v : string) :
  extractType text v = None <-> unmatched text v.
Proof.
  unfold extractType, unmatched.
  destruct (Z.eqb_spec (JS.indexOf text (startMarkerOf v) 0) (-1)) as [E|E].
  - split; auto.
  - destruct (Z.eqb_spec
                (JS.indexOf text (endMarkerOf v)
                   (JS.indexOf text (startMarkerOf v) 0
                    + Z.of_nat (String.length (startMarkerOf v)))) (-1)) as [F|F].
    + split; auto.
    + split; [discriminate|]. intros [H|H]; contradiction.
Qed.

Lemma scanTypes_Some (text : string) (allTypes : list string) (s : SectionT) :
  scanTypes text allTypes = Some s ->
  exists pre t post,
    allTypes = pre ++ t :: post
    /\ Forall (fun u => extractType text u = None) pre
    /\ extractType text t = Some s.
Proof.
  induction allTypes as [|t rest IH]; simpl; [discriminate|].
  destruct (extractType text t) as [s'|] eqn:E.
  - intros H; injection H as <-. exists [], t, rest. repeat split; auto.
  - intros H. destruct (IH H) as (pre & u & post & -> & Hpre & Hu).
    exists (t :: pre), u, post. repeat split; auto.
Qed.

Lemma scanTypes_None (text : string) (allTypes : list string) :
  scanTypes text allTypes = None <->
  Forall (fun u => extractType text u = None) allTypes.
Proof.
  induction allTypes as [|t rest IH]; simpl.
  - split; auto.
  - destruct (extractType text t) as [s'|] eqn:E.
    + split; [discriminate|]. intros H. inversion H; congruence.
    + rewrite IH. split; intros H; [constructor; auto | now inversion H].
Qed.

(** ** Occurrences *)

Lemma indexOf_found (text pattern : string) (from : Z) (i : Z) :
  JS.indexOf text pattern from = i -> i <> -1 ->
  0 <= i /\ occursAt text pattern (Z.to_nat i)
  /\ Z.min (Z.max from 0) (Z.of_nat (String.length text)) <= i.
Proof.
  unfold JS.indexOf, occursAt.
  destruct (index _ pattern text) as [k|] eqn:E; intros <- H; [|congruence].
  rewrite Nat2Z.id. split; [lia|]. split.
  - exact (index_correct1 _ _ _ _ E).
  - assert (Hle : (Nat.min (Z.to_nat from) (String.length text) <= k)%nat).
    { destruct (Nat.le_gt_cases (Nat.min (Z.to_nat from) (String.length text)) k) as [L|L];
        [exact L|].
      exfalso.
      clear H. revert k E L.
      generalize (Nat.min (Z.to_nat from) (String.length text)) as n.
      induction text as [|b text IH]; intros n k.
      - destruct n; simpl; [|discriminate]. intros _ L; lia.
      - destruct n; simpl; [intros _ L; lia|].
        destruct (index n pattern text) as [k'|] eqn:E'; [|discriminate].
        intros H L. injection H as <-. apply (IH n k' E'). lia. }
    lia.
Qed.

Lemma substring_prefix_fits (text : string) (k : nat) :
  String.length (String.substring 0 k text) = k -> (k <= String.length text)%nat.
Proof.
  revert k. induction text as [|c text IH]; intros [|k] L; simpl in *; try lia.
  injection L as L. apply IH in L. lia.
Qed.

Lemma occursAt_fits (text pattern : string) (i : nat) :
  pattern <> EmptyString -> occursAt text pattern i ->
  (i + String.length pattern <= String.length text)%nat.
Proof.
  unfold occursAt. intros Hne H.
  assert (L : String.length (String.substring i (String.length pattern) text)
              = String.length pattern) by now rewrite H.
  assert (Hk : (0 < String.length pattern)%nat)
    by (destruct pattern; [congruence | simpl; lia]).
  clear H Hne. revert L Hk. generalize (String.length pattern) as k. revert i.
  induction text as [|c text IH]; intros i k L Hk.
  - destruct i, k; simpl in L; lia.
  - destruct i as [|i].
    + apply substring_prefix_fits in L. lia.
    + simpl in L. specialize (IH i k L Hk). simpl. lia.
Qed.

Lemma startMarkerOf_nonempty (v : string) : startMarkerOf v <> EmptyString.
Proof. discriminate. Qed.

Lemma noUpper_substring (text : string) (n m : nat) :
  noUpper text = true -> noUpper (String.substring n m text) = true.
Proof.
  revert n m. induction text as [|c text IH]; intros n m H.
  - destruct n, m; reflexivity.
  - simpl in H. apply andb_true_iff in H as [Hc Ht].
    destruct n as [|n].
    + destruct m as [|m]; simpl; [reflexivity|].
      rewrite Hc. simpl. apply IH, Ht.
    + simpl. apply IH, Ht.
Qed.

Lemma noUpper_occurs (text pattern : string) (i : nat) :
  noUpper text = true -> occursAt text pattern i -> noUpper pattern = true.
Proof. unfold occursAt. intros H <-. now apply noUpper_substring. Qed.

Lemma endMarkerOf_upper_letter (v : string) : noUpper (endMarkerOf v) = false.
Proof. reflexivity. Qed.

(** ** The read loop on the entry under construction *)

Lemma updateLast_snoc {A : Type} (f : A -> A) (l : list A) (x : A) :
  updateLast f (l ++ [x]) = l ++ [f x].
Proof.
  induction l as [|y l IH]; simpl; [reflexivity|].
  rewrite IH. destruct (l ++ [x]) eqn:E; [|reflexivity].
  destruct l; discriminate.
Qed.

Lemma readLoop_streamEntry (OutputType : list string) (SQL : string)
  (reads : list ReadResult) (l : list NotebookEntry) (e : NotebookEntry) :
  readLoop OutputType SQL reads (l ++ [e])
  = (l ++ [streamEntry OutputType SQL (delivered reads) e], readOutcome reads).
Proof.
  revert e. induction reads as [|[message|] rest IH]; intros e; simpl; try reflexivity.
  rewrite updateLast_snoc.
  destruct (l ++ [e]) eqn:E; [destruct l; discriminate|]. apply IH.
Qed.

Lemma flat_map_chunks_snoc (os : list Output) (o : Output) :
  flat_map chunks (os ++ [o]) = flat_map chunks os ++ chunks o.
Proof. rewrite flat_map_app. simpl. now rewrite app_nil_r. Qed.

Section Routing.

Variable OutputType : list string.
Variable SQL : string.

Lemma applyMessage_fields (message : string) (e : NotebookEntry) :
  let e' := applyMessage OutputType SQL message e in
  id e' = id e /\ createdAt e' = createdAt e
  /\ notebookId e' = notebookId e /\ userPrompt e' = userPrompt e.
Proof.
  unfold applyMessage. destruct (extractSection OutputType message) as [s|]; simpl;
    [destruct (type s =? SQL)%string|]; simpl; auto.
Qed.

Lemma applyMessage_sqlQueries (message : string) (e : NotebookEntry) :
  sqlQueries (applyMessage OutputType SQL message e)
  = sqlQueries e ++ routedSql OutputType SQL [message].
Proof.
  unfold applyMessage, routedSql. simpl.
  destruct (extractSection OutputType message) as [s|]; simpl;
    [destruct (type s =? SQL)%string|]; simpl; now rewrite ?app_nil_r.
Qed.

Lemma applyMessage_outputs (message : string) (e : NotebookEntry) :
  outputs (applyMessage OutputType SQL message e)
  = match outputs e with
    | [] => [mkOutput 1 (routedChunks OutputType SQL [message])]
    | _ :: _ =>
        updateLast (fun o => mkOutput (version o)
                                      (chunks o ++ routedChunks OutputType SQL [message]))
                   (outputs e)
    end.
Proof.
  assert (Hid : forall os : list Output,
             updateLast (fun o => mkOutput (version o) (chunks o ++ [])) os = os).
  { induction os as [|o os IH]; [reflexivity|].
    simpl. rewrite IH. destruct os; [|reflexivity].
    destruct o; simpl. now rewrite app_nil_r. }
  unfold applyMessage, routedChunks. simpl.
  destruct (outputs e) as [|o os] eqn:Eo; simpl.
  - destruct (extractSection OutputType message) as [s|]; simpl;
      [destruct (type s =? SQL)%string|]; reflexivity.
  - destruct (extractSection OutputType message) as [s|]; simpl;
      [destruct (type s =? SQL)%string|]; simpl.
    + destruct os; symmetry; [destruct o; simpl; now rewrite app_nil_r|].
      exact (f_equal (cons o) (Hid (o0 :: os))).
    + reflexivity.
    + destruct os; symmetry; [destruct o; simpl; now rewrite app_nil_r|].
      exact (f_equal (cons o) (Hid (o0 :: os))).
Qed.

Lemma applyMessage_allChunks (message : string) (e : NotebookEntry) :
  allChunks (applyMessage OutputType SQL message e)
  = allChunks e ++ routedChunks OutputType SQL [message].
Proof.
  unfold allChunks. rewrite applyMessage_outputs.
  destruct (outputs e) as [|o os] eqn:Eo; [simpl; now rewrite app_nil_r|].
  assert (H : o :: os <> []) by discriminate.
  destruct (exists_last H) as (pre & o' & ->).
  rewrite updateLast_snoc, !flat_map_chunks_snoc. simpl. now rewrite app_assoc.
Qed.

Lemma routedSql_app (ms1 ms2 : list string) :
  routedSql OutputType SQL (ms1 ++ ms2)
  = routedSql OutputType SQL ms1 ++ routedSql OutputType SQL ms2.
Proof. apply flat_map_app. Qed.

Lemma routedChunks_app (ms1 ms2 : list string) :
  routedChunks OutputType SQL (ms1 ++ ms2)
  = routedChunks OutputType SQL ms1 ++ routedChunks OutputType SQL ms2.
Proof. apply flat_map_app. Qed.

Lemma streamEntry_sqlQueries (messages : list string) (e : NotebookEntry) :
  sqlQueries (streamEntry OutputType SQL messages e)
  = sqlQueries e ++ routedSql OutputType SQL messages.
Proof.
  revert e. induction messages as [|m ms IH]; intros e.
  - simpl. now rewrite app_nil_r.
  - change (streamEntry OutputType SQL (m :: ms) e)
      with (streamEntry OutputType SQL ms (applyMessage OutputType SQL m e)).
    rewrite IH, applyMessage_sqlQueries, <- app_assoc.
    now rewrite <- routedSql_app.
Qed.

Lemma streamEntry_allChunks (messages : list string) (e : NotebookEntry) :
  allChunks (streamEntry OutputType SQL messages e)
  = allChunks e ++ routedChunks OutputType SQL messages.
Proof.
  revert e. induction messages as [|m ms IH]; intros e.
  - simpl. now rewrite app_nil_r.
  - change (streamEntry OutputType SQL (m :: ms) e)
      with (streamEntry OutputType SQL ms (applyMessage OutputType SQL m e)).
    rewrite IH, applyMessage_allChunks, <- app_assoc.
    now rewrite <- routedChunks_app.
Qed.

Lemma streamEntry_fields (messages : list string) (e : NotebookEntry) :
  let e' := streamEntry OutputType SQL messages e in
  id e' = id e /\ createdAt e' = createdAt e
  /\ notebookId e' = notebookId e /\ userPrompt e' = userPrompt e.
Proof.
  revert e. induction messages as [|m ms IH]; intros e; [simpl; auto|].
  change (streamEntry OutputType SQL (m :: ms) e)
    with (streamEntry OutputType SQL ms (applyMessage OutputType SQL m e)).
  destruct (IH (applyMessage OutputType SQL m e)) as (A & B & C & D).
  destruct (applyMessage_fields m e) as (A' & B' & C' & D').
  cbv zeta. repeat split; congruence.
Qed.

Lemma routedChunks_not_sql (messages : list string) :
  Forall (fun c => chunk_type c <> SQL) (routedChunks OutputType SQL messages).
Proof.
  unfold routedChunks. induction messages as [|m ms IH]; simpl; [constructor|].
  apply Forall_app. split; [|exact IH].
  destruct (extractSection OutputType m) as [s|]; [|constructor].
  destruct (String.eqb_spec (type s) SQL) as [E|E]; constructor; [exact E|constructor].
Qed.

End Routing.

Lemma streamEntry_outputs (OutputType : list string) (SQL : string)
  (messages : list string) (e : NotebookEntry) :
  outputs (streamEntry OutputType SQL messages e)
  = match outputs e, messages with
    | [], [] => []
    | [], _ :: _ => [mkOutput 1 (routedChunks OutputType SQL messages)]
    | _ :: _, _ =>
        updateLast (fun o => mkOutput (version o)
                                      (chunks o ++ routedChunks OutputType SQL messages))
                   (outputs e)
    end.
Proof.
  assert (Hne : forall (ms : list string) (e0 : NotebookEntry) (pre : list Output) (o : Output),
             outputs e0 = pre ++ [o] ->
             outputs (streamEntry OutputType SQL ms e0)
             = pre ++ [mkOutput (version o)
                                (chunks o ++ routedChunks OutputType SQL ms)]).
  { induction ms as [|m ms IH]; intros e0 pre o E.
    - simpl. rewrite E, app_nil_r. now destruct o.
    - change (streamEntry OutputType SQL (m :: ms) e0)
        with (streamEntry OutputType SQL ms (applyMessage OutputType SQL m e0)).
      rewrite (IH _ pre (mkOutput (version o)
                                  (chunks o ++ routedChunks OutputType SQL [m]))).
      + unfold version at 1, chunks at 1.
        rewrite <- app_assoc, <- (routedChunks_app OutputType SQL [m] ms).
        reflexivity.
      + rewrite applyMessage_outputs, E.
        destruct (pre ++ [o]) eqn:E'; [destruct pre; discriminate|].
        rewrite <- E'.
        exact (updateLast_snoc
                 (fun o1 => mkOutput (version o1)
                                     (chunks o1 ++ routedChunks OutputType SQL [m]))
                 pre o). }
  destruct (outputs e) as [|o os] eqn:Eo.
  - destruct messages as [|m ms]; [simpl; exact Eo|].
    change (streamEntry OutputType SQL (m :: ms) e)
      with (streamEntry OutputType SQL ms (applyMessage OutputType SQL m e)).
    rewrite (Hne ms _ [] (mkOutput 1 (routedChunks OutputType SQL [m]))).
    + unfold version at 1, chunks at 1. cbn [app].
      now rewrite <- (routedChunks_app OutputType SQL [m] ms).
    + now rewrite applyMessage_outputs, Eo.
  - assert (H : o :: os <> []) by discriminate.
    destruct (exists_last H) as (pre & o' & E').
    rewrite E', updateLast_snoc. apply Hne. congruence.
Qed.

(** ** The ways out of [sendMessage] before the entry exists *)

Lemma sendMessage_busy (OutputType : list string) (SQL projectId : string)
  (w : World) (st : UIState) :
  isSendingMessage st = true ->
  sendMessage OutputType SQL projectId w st = (st, Returned).
Proof. intros H. unfold sendMessage. now rewrite H. Qed.

Lemma sendMessage_notebook_insert_fails (OutputType : list string)
  (SQL projectId : string) (w : World) (st : UIState) :
  isSendingMessage st = false ->
  selectedNotebookId st = "" ->
  notebookInsertError w = true ->
  sendMessage OutputType SQL projectId w st
  = (mkState (notebooks st) "" (notebookEntries st) (userSearch st) false
             (notifications st ++ ["Failed to create new notebook"]),
     Returned).
Proof.
  intros Hidle Hsel Herr. unfold sendMessage. rewrite Hidle.
  change (selectedNotebookId (setIsSendingMessage true st)) with (selectedNotebookId st).
  rewrite Hsel, Herr. simpl.
  unfold setIsSendingMessage, notifications_show. simpl. now rewrite Hsel.
Qed.

(** ** The claims *)

(** C1, as the spec states it, fails on the code: after the reads
    [=====SQL==] and [===select 1=====END SQL=====] the entry holds no SQL
    statement and no chunk, where the claim promises the one statement
    [select 1]. *)
Lemma C1_split_marker_counterexample :
  let reads := [ReadValue "=====SQL=="; ReadValue "===select 1=====END SQL====="] in
  let e := mkEntry "e" "t" "n" "q" [] [] in
  exists e',
    readLoop OutputType_values OutputType_SQL_value reads [e] = ([e'], Returned)
    /\ sqlQueries e' = []
    /\ allChunks e' = []
    /\ sqlQueries e' <> ["select 1"].
Proof.
  eexists. split; [vm_compute; reflexivity|].
  repeat split; simpl; discriminate.
Qed.

(** C1 (amended): every read is decoded and scanned on its own and nothing
    of a read is kept for the next one.  Two reads contribute exactly what
    [extractSection] finds in the first alone and in the second alone; so the
    reads [=====SQL==] and [===select 1=====END SQL=====] yield no segment,
    while the same text arriving in one read yields exactly one SQL statement,
    [select 1]. *)
Theorem C1_reads_scanned_in_isolation :
  (forall (OutputType : list string) (SQL : string) (m1 m2 : string)
          (l : list NotebookEntry) (e : NotebookEntry),
      exists e',
        readLoop OutputType SQL [ReadValue m1; ReadValue m2] (l ++ [e])
        = (l ++ [e'], Returned)
        /\ sqlQueries e'
           = sqlQueries e ++ routedSql OutputType SQL [m1] ++ routedSql OutputType SQL [m2]
        /\ allChunks e'
           = allChunks e ++ routedChunks OutputType SQL [m1]
               ++ routedChunks OutputType SQL [m2])
  /\ extractSection OutputType_values "=====SQL==" = None
  /\ extractSection OutputType_values "===select 1=====END SQL=====" = None
  /\ readLoop OutputType_values OutputType_SQL_value
       [ReadValue "=====SQL=="; ReadValue "===select 1=====END SQL====="]
       [mkEntry "e" "t" "n" "q" [] []]
     = ([mkEntry "e" "t" "n" "q" [] [mkOutput 1 []]], Returned)
  /\ readLoop OutputType_values OutputType_SQL_value
       [ReadValue "=====SQL=====select 1=====END SQL====="]
       [mkEntry "e" "t" "n" "q" [] []]
     = ([mkEntry "e" "t" "n" "q" ["select 1"] [mkOutput 1 []]], Returned).
Proof.
  split; [|repeat split; reflexivity].
  intros OutputType SQL m1 m2 l e.
  exists (streamEntry OutputType SQL [m1; m2] e). split; [|split].
  - exact (readLoop_streamEntry OutputType SQL [ReadValue m1; ReadValue m2] l e).
  - rewrite streamEntry_sqlQueries.
    now rewrite <- (routedSql_app OutputType SQL [m1] [m2]).
  - rewrite streamEntry_allChunks.
    now rewrite <- (routedChunks_app OutputType SQL [m1] [m2]).
Qed.

(** C2, as the spec states it, fails on the code: a read that carries a
    complete SQL segment and a complete text segment produces the SQL
    statement only; the text segment produces no chunk. *)
Lemma C2_two_segments_counterexample :
  let message :=
    "=====SQL=====select 1=====END SQL==========TEXT=====hello=====END TEXT=====" in
  readLoop OutputType_values OutputType_SQL_value [ReadValue message]
    [mkEntry "e" "t" "n" "q" [] []]
  = ([mkEntry "e" "t" "n" "q" ["select 1"] [mkOutput 1 []]], Returned)
  /\ extractType message "TEXT" = Some (mkSection "text" "hello").
Proof. split; reflexivity. Qed.

(** C2 (amended): one extraction step returns at most one section, the one
    of the first type in the order of the enumeration whose start marker and
    a later end marker are both in the read; nothing is removed from the text
    and the scan is not repeated, so a read appends at most one item to the
    entry. *)
Theorem C2_one_section_per_read :
  forall (OutputType : list string) (SQL : string) (message : string)
         (l : list NotebookEntry) (e : NotebookEntry),
  exists e',
    readLoop OutputType SQL [ReadValue message] (l ++ [e]) = (l ++ [e'], Returned)
    /\ (List.length (sqlQueries e') + List.length (allChunks e')
        <= List.length (sqlQueries e) + List.length (allChunks e) + 1)%nat
    /\ (forall s, extractSection OutputType message = Some s ->
          exists pre t post,
            map JS.toUpperCase OutputType = pre ++ t :: post
            /\ Forall (fun u => extractType message u = None) pre
            /\ extractType message t = Some s).
Proof.
  intros OutputType SQL message l e.
  exists (applyMessage OutputType SQL message e). split; [|split].
  - exact (readLoop_streamEntry OutputType SQL [ReadValue message] l e).
  - rewrite applyMessage_sqlQueries, applyMessage_allChunks, !length_app.
    unfold routedSql, routedChunks. simpl.
    destruct (extractSection OutputType message) as [s|]; simpl;
      [destruct (type s =? SQL)%string|]; simpl; lia.
  - intros s H. exact (scanTypes_Some _ _ _ H).
Qed.

(** C3, as the spec states it, fails on the code: with the start marker of
    [sql] present and its end marker missing, the scan goes on and returns the
    complete [text] segment of the same buffer. *)
Lemma C3_later_type_counterexample :
  let text := "=====SQL=====select=====TEXT=====hi=====END TEXT=====" in
  startWithoutEnd text "sql"
  /\ extractSection OutputType_values text = Some (mkSection "text" "hi").
Proof.
  split; [|reflexivity].
  split; [vm_compute; discriminate | reflexivity].
Qed.

(** C3 (amended): when the start marker of a type is in the text and its end
    marker is not behind it, the scan skips that type and goes on with the
    types enumerated after it, wherever the type stands in the enumeration:
    the result is that of the scan over the enumeration without that type,
    so a later type whose two markers are present is extracted in the same
    pass. *)
Theorem C3_scan_skips_open_type :
  forall (pre post : list string) (text v : string),
    startWithoutEnd text v ->
    extractSection (pre ++ v :: post) text = extractSection (pre ++ post) text.
Proof.
  intros pre post text v [_ Hend].
  assert (H : extractType text (JS.toUpperCase v) = None).
  { rewrite extractType_upper.
    assert (H0 : extractType text v = None)
      by (apply extractType_unmatched; right; exact Hend).
    now rewrite H0. }
  unfold extractSection. rewrite !map_app. cbn [map].
  induction (map JS.toUpperCase pre) as [|u us IH]; simpl.
  - now rewrite H.
  - destruct (extractType text u); [reflexivity | exact IH].
Qed.

Lemma C3_scan_skips_open_type_witness :
  startWithoutEnd "=====TEXT=====partial=====CHART=====c=====END CHART=====" "text"
  /\ extractSection (["sql"] ++ "text" :: ["table"; "chart"])
       "=====TEXT=====partial=====CHART=====c=====END CHART====="
     = extractSection (["sql"] ++ ["table"; "chart"])
         "=====TEXT=====partial=====CHART=====c=====END CHART====="
  /\ extractSection OutputType_values
       "=====TEXT=====partial=====CHART=====c=====END CHART====="
     = Some (mkSection "chart" "c").
Proof.
  assert (H : startWithoutEnd
                "=====TEXT=====partial=====CHART=====c=====END CHART=====" "text")
    by (split; [vm_compute; discriminate | reflexivity]).
  split; [exact H|]. split; [|reflexivity].
  exact (C3_scan_skips_open_type ["sql"] ["table"; "chart"] _ "text" H).
Defined.

(** C4, as the spec states it, fails on the code: markers whose type token
    is in lower case are not recognised, whether the rest of the marker is
    in lower case too or not. *)
Lemma C4_lower_case_counterexample :
  extractSection OutputType_values "=====sql=====select 1=====end sql=====" = None
  /\ extractSection OutputType_values "=====sql=====select 1=====END sql=====" = None.
Proof. split; reflexivity. Qed.

(** C4 (amended): matching is exact on the whole marker, type token
    included: a section is returned only when the text holds, letter for
    letter, the start marker built from the upper-cased type name and behind
    it the matching end marker, and a text without upper-case letters yields
    nothing.  What is insensitive to case is the spelling of the types in the
    enumeration: upper-casing or lower-casing the declared values changes no
    result. *)
Theorem C4_markers_match_exactly :
  forall (OutputType : list string) (text : string),
    (forall s, extractSection OutputType text = Some s ->
       exists v i j,
         In v OutputType
         /\ occursAt text ("=====" ++ JS.toUpperCase v ++ "=====")%string i
         /\ occursAt text ("=====END " ++ JS.toUpperCase v ++ "=====")%string j
         /\ (i + String.length ("=====" ++ JS.toUpperCase v ++ "=====")%string <= j)%nat)
    /\ (noUpper text = true -> extractSection OutputType text = None)
    /\ extractSection (map JS.toUpperCase OutputType) text = extractSection OutputType text
    /\ extractSection (map JS.toLowerCase OutputType) text = extractSection OutputType text.
Proof.
  intros OutputType text.
  assert (Hocc : forall s, extractSection OutputType text = Some s ->
       exists v i j,
         In v OutputType
         /\ occursAt text ("=====" ++ JS.toUpperCase v ++ "=====")%string i
         /\ occursAt text ("=====END " ++ JS.toUpperCase v ++ "=====")%string j
         /\ (i + String.length ("=====" ++ JS.toUpperCase v ++ "=====")%string <= j)%nat).
  { intros s H. apply scanTypes_Some in H as (pre & t & post & Hsplit & _ & Ht).
    assert (Hin : In t (map JS.toUpperCase OutputType))
      by (rewrite Hsplit; apply in_elt).
    apply in_map_iff in Hin as (v & <- & Hv).
    rewrite extractType_upper in Ht.
    destruct (extractType text v) as [s0|] eqn:E; [|discriminate]. clear Ht.
    unfold extractType in E.
    destruct (Z.eqb_spec (JS.indexOf text (startMarkerOf v) 0) (-1)) as [|Hs];
      [discriminate|].
    destruct (Z.eqb_spec
                (JS.indexOf text (endMarkerOf v)
                   (JS.indexOf text (startMarkerOf v) 0
                    + Z.of_nat (String.length (startMarkerOf v)))) (-1)) as [|He];
      [discriminate|].
    destruct (indexOf_found _ _ _ _ eq_refl Hs) as (Hs0 & Hso & _).
    destruct (indexOf_found _ _ _ _ eq_refl He) as (He0 & Heo & Hle).
    exists v, (Z.to_nat (JS.indexOf text (startMarkerOf v) 0)),
      (Z.to_nat (JS.indexOf text (endMarkerOf v)
                   (JS.indexOf text (startMarkerOf v) 0
                    + Z.of_nat (String.length (startMarkerOf v))))).
    split; [exact Hv|]. split; [exact Hso|]. split; [exact Heo|].
    fold (startMarkerOf v).
    assert (Hlen := occursAt_fits _ _ _ (startMarkerOf_nonempty v) Hso).
    lia. }
  split; [exact Hocc|]. split; [|split].
  - intros Hno. destruct (extractSection OutputType text) as [s|] eqn:E; [|reflexivity].
    destruct (Hocc s eq_refl) as (v & i & j & _ & _ & Hj & _).
    apply (noUpper_occurs _ _ _ Hno) in Hj.
    fold (endMarkerOf v) in Hj. rewrite endMarkerOf_upper_letter in Hj. discriminate.
  - unfold extractSection. rewrite map_map.
    f_equal. apply map_ext, toUpperCase_idem.
  - unfold extractSection. rewrite map_map.
    f_equal. apply map_ext, toUpperCase_toLowerCase.
Qed.

Lemma C4_markers_match_exactly_witness :
  noUpper "=====sql=====select 1=====end sql=====" = true
  /\ extractSection OutputType_values "=====sql=====select 1=====end sql=====" = None.
Proof.
  split; [reflexivity|].
  exact (proj1 (proj2 (C4_markers_match_exactly OutputType_values
                         "=====sql=====select 1=====end sql=====")) eq_refl).
Defined.

(** C5, as the spec states it, fails on the code: after a stream whose only
    segment is of type SQL, no chunk has been routed and yet the entry's
    outputs are not empty. *)
Lemma C5_all_sql_counterexample :
  let reads := [ReadValue "=====SQL=====select 1=====END SQL====="] in
  routedChunks OutputType_values OutputType_SQL_value (delivered reads) = []
  /\ exists e',
       readLoop OutputType_values OutputType_SQL_value reads
         [mkEntry "e" "t" "n" "q" [] []] = ([e'], Returned)
       /\ sqlQueries e' = ["select 1"]
       /\ outputs e' = [mkOutput 1 []]
       /\ outputs e' <> [].
Proof.
  split; [reflexivity|].
  eexists. split; [vm_compute; reflexivity|].
  repeat split; simpl; discriminate.
Qed.

(** C5 (amended): over one streaming session that starts from the new entry,
    the outputs are non-empty if and only if at least one read has been
    delivered.  The single output, of version 1, is created at the first
    read, before the read is scanned and whatever it holds, and it collects
    the chunks of the segments that are not of type SQL; the SQL list holds
    the SQL contents only.  A stream that closes with zero bytes leaves both
    lists empty; a stream whose segments are all of type SQL leaves the one
    output, with no chunk. *)
Theorem C5_output_created_at_first_read :
  forall (OutputType : list string) (SQL : string) (reads : list ReadResult)
         (l : list NotebookEntry) (i c n u : string),
  exists e',
    readLoop OutputType SQL reads (l ++ [mkEntry i c n u [] []])
    = (l ++ [e'], readOutcome reads)
    /\ (outputs e' = [] <-> delivered reads = [])
    /\ sqlQueries e' = routedSql OutputType SQL (delivered reads)
    /\ match delivered reads with
       | [] => sqlQueries e' = [] /\ outputs e' = []
       | _ :: _ =>
           outputs e' = [mkOutput 1 (routedChunks OutputType SQL (delivered reads))]
       end.
Proof.
  intros OutputType SQL reads l i c n u.
  exists (streamEntry OutputType SQL (delivered reads) (mkEntry i c n u [] [])).
  split; [apply readLoop_streamEntry|].
  rewrite streamEntry_outputs, streamEntry_sqlQueries. simpl.
  destruct (delivered reads) as [|m ms]; simpl.
  - repeat split; auto.
  - repeat split; auto; discriminate.
Qed.

(** C6, as the spec states it, fails on the code: when the entry has been
    persisted and the response comes back with a status that is not a
    success, no segment has been applied, the notice is shown, and the entry
    stays in the visible list. *)
Lemma C6_no_rollback_counterexample :
  let w := mkWorld "nb" false "e" "t" false (Response false None) (Response true "") in
  let st := mkState [mkNotebook "n" "Notes" "p"] "n" [] "show sales" false [] in
  let st' := fst (sendMessage OutputType_values OutputType_SQL_value "p" w st) in
  notebookEntries st' = [mkEntry "e" "t" "n" "show sales" [] []]
  /\ notebookEntries st' <> notebookEntries st
  /\ notifications st' = ["Failed to send message"].
Proof. repeat split; simpl; discriminate. Qed.

(** C6 (amended): for a submission that has its notebook (one is selected,
    or the new one has been created), the entry is
    taken back out of the visible list, with a notice, when persisting it
    fails.  When the entry has been persisted and the response cannot be
    used (status not a success, or no body) a notice is shown and the entry,
    still empty, stays in the visible list; when the request itself rejects
    the entry stays as well.  Once the stream is being read, the visible
    entry is the one built from the reads delivered so far, also when a read
    rejects. *)
Theorem C6_rollback_only_when_persisting_fails :
  forall (OutputType : list string) (SQL projectId : string) (w : World) (st : UIState),
    isSendingMessage st = false ->
    (selectedNotebookId st =? "")%string && notebookInsertError w = false ->
    let notebookId :=
      if (selectedNotebookId st =? "")%string then v4_notebook w
      else selectedNotebookId st in
    let newNotebookEntry :=
      mkEntry (v4_entry w) (now w) notebookId (userSearch st) [] [] in
    let st' := fst (sendMessage OutputType SQL projectId w st) in
    if entryInsertError w then
      notebookEntries st' = notebookEntries st
      /\ notifications st' = notifications st ++ ["Failed to create new notebook entry"]
    else
      match searchResponse w with
      | FetchRejects =>
          notebookEntries st' = notebookEntries st ++ [newNotebookEntry]
          /\ notifications st' = notifications st
      | Response false _ =>
          notebookEntries st' = notebookEntries st ++ [newNotebookEntry]
          /\ notifications st' = notifications st ++ ["Failed to send message"]
      | Response true None =>
          notebookEntries st' = notebookEntries st ++ [newNotebookEntry]
          /\ notifications st' = notifications st ++ ["Failed to get stream from response"]
      | Response true (Some reads) =>
          notebookEntries st'
          = notebookEntries st
              ++ [streamEntry OutputType SQL (delivered reads) newNotebookEntry]
      end.
Proof.
  intros OutputType SQL projectId w st Hidle Hnb.
  assert (Hentry : forall nid st0,
    notebookEntries st0 = notebookEntries st ->
    notifications st0 = notifications st ->
    userSearch st0 = userSearch st ->
    let new := mkEntry (v4_entry w) (now w) nid (userSearch st) [] [] in
    let st' := fst (sendEntry OutputType SQL w nid st0) in
    if entryInsertError w then
      notebookEntries st' = notebookEntries st
      /\ notifications st' = notifications st ++ ["Failed to create new notebook entry"]
    else
      match searchResponse w with
      | FetchRejects =>
          notebookEntries st' = notebookEntries st ++ [new]
          /\ notifications st' = notifications st
      | Response false _ =>
          notebookEntries st' = notebookEntries st ++ [new]
          /\ notifications st' = notifications st ++ ["Failed to send message"]
      | Response true None =>
          notebookEntries st' = notebookEntries st ++ [new]
          /\ notifications st' = notifications st ++ ["Failed to get stream from response"]
      | Response true (Some reads) =>
          notebookEntries st'
          = notebookEntries st ++ [streamEntry OutputType SQL (delivered reads) new]
      end).
  { intros nid st0 He Hn Hu. cbv zeta. unfold sendEntry.
    rewrite He, Hu.
    destruct (entryInsertError w).
    - simpl. rewrite removelast_last, Hn. auto.
    - destruct (searchResponse w) as [|[|] [reads|]]; simpl; rewrite ?Hn; auto.
      rewrite readLoop_streamEntry.
      destruct (readOutcome reads); [|reflexivity].
      unfold nameNotebook.
      destruct (titleResponse w) as [|[|] title]; simpl; try reflexivity.
      destruct (title =? "")%string; reflexivity. }
  cbv zeta. unfold sendMessage. rewrite Hidle.
  change (selectedNotebookId (setIsSendingMessage true st)) with (selectedNotebookId st).
  destruct (selectedNotebookId st =? "")%string.
  - simpl in Hnb. rewrite Hnb. apply Hentry; reflexivity.
  - apply Hentry; reflexivity.
Qed.

Lemma C6_rollback_only_when_persisting_fails_witness :
  let w := mkWorld "nb" false "e" "t" true (Response true None) (Response true "") in
  let st := mkState [] "" [] "show sales" false [] in
  isSendingMessage st = false
  /\ (selectedNotebookId st =? "")%string && notebookInsertError w = false
  /\ notebookEntries (fst (sendMessage OutputType_values OutputType_SQL_value "p" w st))
     = notebookEntries st
  /\ notifications (fst (sendMessage OutputType_values OutputType_SQL_value "p" w st))
     = notifications st ++ ["Failed to create new notebook entry"].
Proof.
  intros w st. split; [reflexivity|]. split; [reflexivity|].
  exact (C6_rollback_only_when_persisting_fails
           OutputType_values OutputType_SQL_value "p" w st eq_refl eq_refl).
Defined.

Lemma routedSql_provenance (OutputType : list string) (SQL : string)
  (messages : list string) :
  Forall (fun q =>
            exists message section,
              In message messages
              /\ extractSection OutputType message = Some section
              /\ type section = SQL
              /\ q = content section)
         (routedSql OutputType SQL messages).
Proof.
  unfold routedSql. induction messages as [|m ms IH]; simpl; [constructor|].
  apply Forall_app. split.
  - destruct (extractSection OutputType m) as [s|] eqn:E; [|constructor].
    destruct (String.eqb_spec (type s) SQL) as [T|T]; constructor; [|constructor].
    exists m, s. repeat split; auto.
  - eapply Forall_impl; [|exact IH].
    intros q (message & section & Hin & H). exists message, section.
    split; [right; exact Hin | exact H].
Qed.

Lemma routedChunks_provenance (OutputType : list string) (SQL : string)
  (messages : list string) :
  Forall (fun c =>
            exists message section,
              In message messages
              /\ extractSection OutputType message = Some section
              /\ type section <> SQL
              /\ chunk_type c = type section
              /\ chunk_content c
                 = if (content section =? "")%string then message
                   else content section)
         (routedChunks OutputType SQL messages).
Proof.
  unfold routedChunks. induction messages as [|m ms IH]; simpl; [constructor|].
  apply Forall_app. split.
  - destruct (extractSection OutputType m) as [s|] eqn:E; [|constructor].
    destruct (String.eqb_spec (type s) SQL) as [T|T]; constructor; [|constructor].
    exists m, s. repeat split; auto.
  - eapply Forall_impl; [|exact IH].
    intros c (message & section & Hin & H). exists message, section.
    split; [right; exact Hin | exact H].
Qed.

Lemma delivered_values (messages : list string) :
  delivered (map ReadValue messages) = messages
  /\ readOutcome (map ReadValue messages) = Returned.
Proof.
  induction messages as [|m ms [IH1 IH2]]; simpl; [split; reflexivity|].
  now rewrite IH1, IH2.
Qed.

Lemma routedChunks_one (OutputType : list string) (SQL : string)
  (message : string) (section : SectionT) :
  extractSection OutputType message = Some section ->
  type section <> SQL ->
  routedChunks OutputType SQL [message]
  = [mkChunk (if (content section =? "")%string then message else content section)
             (type section)].
Proof.
  intros H T. unfold routedChunks. simpl. rewrite H.
  apply String.eqb_neq in T. now rewrite T.
Qed.

Lemma routedSql_one_chunk (OutputType : list string) (SQL : string)
  (message : string) (section : SectionT) :
  extractSection OutputType message = Some section ->
  type section <> SQL ->
  routedSql OutputType SQL [message] = [].
Proof.
  intros H T. unfold routedSql. simpl. rewrite H.
  apply String.eqb_neq in T. now rewrite T.
Qed.

(** C7, as the spec states it, fails on the code: a read holds a complete
    text segment whose content is empty, and behind it text between SQL
    markers.  The chunk appended to the output does not hold the segment's
    content, which is empty, but the whole raw read, so the text sent
    between the SQL markers is in the outputs. *)
Lemma C7_raw_read_counterexample :
  let message := "=====TEXT==========END TEXT==========SQL=====select secret" in
  extractSection OutputType_values message = Some (mkSection "text" "")
  /\ readLoop OutputType_values OutputType_SQL_value [ReadValue message]
       [mkEntry "e" "t" "n" "q" [] []]
     = ([mkEntry "e" "t" "n" "q" [] [mkOutput 1 [mkChunk message "text"]]], Returned)
  /\ message <> content (mkSection "text" "")
  /\ occursAt message "=====SQL=====select secret" 32.
Proof. repeat split; try reflexivity. discriminate. Qed.

(** C7 (amended): a section is routed by its type alone.  A read whose
    section is of type SQL appends the section's content to the SQL list and
    leaves the chunks alone; a read whose section is of another type appends
    one chunk of that type to the last output and leaves the SQL list alone.
    The chunk holds the section's content when that content is not empty;
    when the trimmed content is empty it holds the whole raw read instead.
    Over a whole session the SQL list grows by exactly the contents of the
    sections of type SQL, in order, so the content of a section of another
    type never gets there; the chunks grow by one chunk for each section of
    another type, in order, and no chunk is of type SQL. *)
Theorem C7_sections_routed_by_type :
  forall (OutputType : list string) (SQL : string),
    (forall (message : string) (e : NotebookEntry) (section : SectionT),
        extractSection OutputType message = Some section ->
        let e' := applyMessage OutputType SQL message e in
        (type section = SQL ->
           sqlQueries e' = sqlQueries e ++ [content section]
           /\ allChunks e' = allChunks e)
        /\ (type section <> SQL ->
              sqlQueries e' = sqlQueries e
              /\ exists c,
                   allChunks e' = allChunks e ++ [c]
                   /\ chunk_type c = type section
                   /\ chunk_content c
                      = if (content section =? "")%string then message
                        else content section))
    /\ (forall (reads : list ReadResult) (l : list NotebookEntry) (e : NotebookEntry),
          exists e' qs cs,
            readLoop OutputType SQL reads (l ++ [e]) = (l ++ [e'], readOutcome reads)
            /\ sqlQueries e' = sqlQueries e ++ qs
            /\ allChunks e' = allChunks e ++ cs
            /\ qs = routedSql OutputType SQL (delivered reads)
            /\ cs = routedChunks OutputType SQL (delivered reads)
            /\ Forall (fun q =>
                         exists message section,
                           In message (delivered reads)
                           /\ extractSection OutputType message = Some section
                           /\ type section = SQL
                           /\ q = content section) qs
            /\ Forall (fun c =>
                         chunk_type c <> SQL
                         /\ exists message section,
                              In message (delivered reads)
                              /\ extractSection OutputType message = Some section
                              /\ type section <> SQL
                              /\ chunk_type c = type section
                              /\ chunk_content c
                                 = if (content section =? "")%string then message
                                   else content section) cs).
Proof.
  intros OutputType SQL. split.
  - intros message e section H. cbv zeta.
    rewrite applyMessage_sqlQueries, applyMessage_allChunks.
    unfold routedSql, routedChunks. simpl. rewrite H.
    destruct (String.eqb_spec (type section) SQL) as [E|E]; simpl;
      rewrite ?app_nil_r; split; intros E'; try contradiction; split; auto.
    eexists. split; [reflexivity|]. split; reflexivity.
  - intros reads l e.
    exists (streamEntry OutputType SQL (delivered reads) e),
      (routedSql OutputType SQL (delivered reads)),
      (routedChunks OutputType SQL (delivered reads)).
    split; [apply readLoop_streamEntry|].
    split; [apply streamEntry_sqlQueries|].
    split; [apply streamEntry_allChunks|].
    split; [reflexivity|]. split; [reflexivity|].
    split; [apply routedSql_provenance|].
    pose proof (routedChunks_provenance OutputType SQL (delivered reads)) as Hp.
    eapply Forall_impl; [|exact Hp].
    intros c (message & section & Hin & Hs & Ht & Hc & Hcc).
    split; [congruence|]. exists message, section. repeat split; auto.
Qed.

Lemma C7_sections_routed_by_type_witness :
  let message := "=====TEXT=====hello=====END TEXT=====" in
  let e := mkEntry "e" "t" "n" "q" ["select 1"] [] in
  extractSection OutputType_values message = Some (mkSection "text" "hello")
  /\ "text" <> OutputType_SQL_value
  /\ sqlQueries (applyMessage OutputType_values OutputType_SQL_value message e)
     = ["select 1"].
Proof.
  intros message e. split; [reflexivity|].
  assert (H : "text" <> OutputType_SQL_value) by discriminate.
  split; [exact H|].
  exact (proj1 (proj2 (proj1 (C7_sections_routed_by_type
                                OutputType_values OutputType_SQL_value)
                         message e (mkSection "text" "hello") eq_refl) H)).
Defined.

(** C8: the entry is append-only over a streaming session.  Whatever the
    entry held before, reading on leaves the other entries alone, keeps the
    entry's identification, and extends its SQL list and the chunks of its
    last output at the end, by exactly what the reads delivered contribute,
    in the order of the reads; the outputs before the last are unchanged.
    For any two reads that each hold a complete segment of a type other than
    SQL (two text segments, say), whatever is read before, between and
    behind them, the chunk of the first comes before the chunk of the
    second; read alone into a new entry they are the two chunks, in that
    order, of the single output. *)
Theorem C8_entry_append_only :
  (forall (OutputType : list string) (SQL : string) (reads : list ReadResult)
          (l : list NotebookEntry) (e : NotebookEntry),
      exists e',
        readLoop OutputType SQL reads (l ++ [e]) = (l ++ [e'], readOutcome reads)
        /\ id e' = id e /\ userPrompt e' = userPrompt e
        /\ sqlQueries e' = sqlQueries e ++ routedSql OutputType SQL (delivered reads)
        /\ allChunks e'
           = allChunks e ++ routedChunks OutputType SQL (delivered reads)
        /\ match outputs e with
           | [] =>
               outputs e'
               = match delivered reads with
                 | [] => []
                 | _ :: _ =>
                     [mkOutput 1 (routedChunks OutputType SQL (delivered reads))]
                 end
           | _ :: _ =>
               exists pre o,
                 outputs e = pre ++ [o]
                 /\ outputs e'
                    = pre ++ [mkOutput (version o)
                                (chunks o
                                 ++ routedChunks OutputType SQL (delivered reads))]
           end)
  /\ (forall (OutputType : list string) (SQL : string)
             (before between behind : list string) (m1 m2 : string)
             (s1 s2 : SectionT) (l : list NotebookEntry) (e : NotebookEntry),
        extractSection OutputType m1 = Some s1 -> type s1 <> SQL ->
        extractSection OutputType m2 = Some s2 -> type s2 <> SQL ->
        let c1 := mkChunk (if (content s1 =? "")%string then m1 else content s1)
                          (type s1) in
        let c2 := mkChunk (if (content s2 =? "")%string then m2 else content s2)
                          (type s2) in
        (exists e',
           readLoop OutputType SQL
             (map ReadValue (before ++ m1 :: between ++ m2 :: behind)) (l ++ [e])
           = (l ++ [e'], Returned)
           /\ allChunks e'
              = allChunks e ++ routedChunks OutputType SQL before
                  ++ c1 :: routedChunks OutputType SQL between
                  ++ c2 :: routedChunks OutputType SQL behind)
        /\ (outputs e = [] ->
            exists e',
              readLoop OutputType SQL [ReadValue m1; ReadValue m2] (l ++ [e])
              = (l ++ [e'], Returned)
              /\ sqlQueries e' = sqlQueries e
              /\ outputs e' = [mkOutput 1 [c1; c2]]))
  /\ readLoop OutputType_values OutputType_SQL_value
       [ReadValue "=====TEXT=====one=====END TEXT=====";
        ReadValue "=====TEXT=====two=====END TEXT====="]
       [mkEntry "e" "t" "n" "q" [] []]
     = ([mkEntry "e" "t" "n" "q" []
           [mkOutput 1 [mkChunk "one" "text"; mkChunk "two" "text"]]], Returned).
Proof.
  split; [|split; [|reflexivity]].
  - intros OutputType SQL reads l e.
    exists (streamEntry OutputType SQL (delivered reads) e).
    split; [apply readLoop_streamEntry|].
    destruct (streamEntry_fields OutputType SQL (delivered reads) e) as (A & _ & _ & D).
    split; [exact A|]. split; [exact D|].
    split; [apply streamEntry_sqlQueries|].
    split; [apply streamEntry_allChunks|].
    rewrite streamEntry_outputs.
    destruct (outputs e) as [|o os] eqn:Eo.
    + destruct (delivered reads); reflexivity.
    + assert (H : o :: os <> []) by discriminate.
      destruct (exists_last H) as (pre & o' & E').
      exists pre, o'. split; [exact E'|].
      rewrite E', updateLast_snoc. reflexivity.
  - intros OutputType SQL before between behind m1 m2 s1 s2 l e H1 T1 H2 T2.
    cbv zeta. split.
    + exists (streamEntry OutputType SQL
                (before ++ m1 :: between ++ m2 :: behind) e).
      pose proof (readLoop_streamEntry OutputType SQL
                    (map ReadValue (before ++ m1 :: between ++ m2 :: behind)) l e) as R.
      destruct (delivered_values (before ++ m1 :: between ++ m2 :: behind)) as [D O].
      rewrite D, O in R. split; [exact R|].
      rewrite streamEntry_allChunks. f_equal.
      rewrite routedChunks_app. f_equal.
      change (m1 :: between ++ m2 :: behind) with ([m1] ++ between ++ m2 :: behind).
      rewrite routedChunks_app, (routedChunks_one _ _ _ _ H1 T1). cbn [app]. f_equal.
      rewrite routedChunks_app. f_equal.
      change (m2 :: behind) with ([m2] ++ behind).
      now rewrite routedChunks_app, (routedChunks_one _ _ _ _ H2 T2).
    + intros Ho. exists (streamEntry OutputType SQL [m1; m2] e).
      split; [exact (readLoop_streamEntry OutputType SQL
                       [ReadValue m1; ReadValue m2] l e)|].
      split.
      * rewrite streamEntry_sqlQueries.
        change [m1; m2] with ([m1] ++ [m2]).
        rewrite routedSql_app, (routedSql_one_chunk _ _ _ _ H1 T1),
          (routedSql_one_chunk _ _ _ _ H2 T2).
        apply app_nil_r.
      * rewrite streamEntry_outputs, Ho.
        change [m1; m2] with ([m1] ++ [m2]).
        now rewrite routedChunks_app, (routedChunks_one _ _ _ _ H1 T1),
          (routedChunks_one _ _ _ _ H2 T2).
Qed.

Lemma C8_entry_append_only_witness :
  let m1 := "=====TEXT=====one=====END TEXT=====" in
  let m2 := "=====CHART=====two=====END CHART=====" in
  extractSection OutputType_values m1 = Some (mkSection "text" "one")
  /\ extractSection OutputType_values m2 = Some (mkSection "chart" "two")
  /\ exists e',
       readLoop OutputType_values OutputType_SQL_value [ReadValue m1; ReadValue m2]
         ([] ++ [mkEntry "e" "t" "n" "q" [] []])
       = ([] ++ [e'], Returned)
       /\ sqlQueries e' = []
       /\ outputs e' = [mkOutput 1 [mkChunk "one" "text"; mkChunk "two" "chart"]].
Proof.
  intros m1 m2. split; [reflexivity|]. split; [reflexivity|].
  assert (T1 : "text" <> OutputType_SQL_value) by discriminate.
  assert (T2 : "chart" <> OutputType_SQL_value) by discriminate.
  exact (proj2 (proj1 (proj2 C8_entry_append_only)
                  OutputType_values OutputType_SQL_value [] [] [] m1 m2
                  (mkSection "text" "one") (mkSection "chart" "two")
                  [] (mkEntry "e" "t" "n" "q" [] [])
                  eq_refl T1 eq_refl T2) eq_refl).
Defined.

(** C9: extraction is a total function of the text and the only way it
    fails is by returning no section.  It returns none exactly when every
    type of the enumeration is unmatched in the text (no start marker, or no
    end marker behind the first start marker), and a type that is unmatched
    is never the type of the returned section.  The text
    [=====TEXT=====hello], which has a start marker and content and no end
    marker, yields no section. *)
Theorem C9_unmatched_markers_yield_nothing :
  forall (OutputType : list string) (text : string),
    (extractSection OutputType text = None
     <-> Forall (unmatched text) OutputType)
    /\ (forall v s, unmatched text v ->
          extractSection OutputType text = Some s -> type s <> JS.toLowerCase v)
    /\ extractSection OutputType_values "=====TEXT=====hello" = None
    /\ unmatched "=====TEXT=====hello" "text".
Proof.
  intros OutputType text.
  assert (Hup : forall v, extractType text (JS.toUpperCase v) = None <-> unmatched text v).
  { intros v. rewrite extractType_upper, <- extractType_unmatched.
    destruct (extractType text v); simpl; split; congruence. }
  split; [|split; [|split; [reflexivity | right; reflexivity]]].
  - unfold extractSection. rewrite scanTypes_None, Forall_map.
    split; intros H; eapply Forall_impl; try exact H; intros v; apply Hup.
  - intros v s Hv H Heq.
    apply scanTypes_Some in H as (pre & t & post & Hsplit & _ & Ht).
    assert (Hin : In t (map JS.toUpperCase OutputType))
      by (rewrite Hsplit; apply in_elt).
    apply in_map_iff in Hin as (u & <- & _).
    pose proof (extractType_type _ _ _ Ht) as Hty.
    rewrite toLowerCase_toUpperCase, Heq in Hty.
    assert (Hu : JS.toUpperCase u = JS.toUpperCase v).
    { rewrite <- (toUpperCase_toLowerCase u), <- (toUpperCase_toLowerCase v).
      now rewrite Hty. }
    rewrite Hu in Ht. apply Hup in Hv. congruence.
Qed.

Lemma C9_unmatched_markers_yield_nothing_witness :
  Forall (unmatched "=====TEXT=====hello") ["text"]
  /\ extractSection ["text"] "=====TEXT=====hello" = None.
Proof.
  assert (H : Forall (unmatched "=====TEXT=====hello") ["text"])
    by (constructor; [right; reflexivity | constructor]).
  split; [exact H|].
  exact (proj2 (proj1 (C9_unmatched_markers_yield_nothing
                         ["text"] "=====TEXT=====hello")) H).
Defined.

(** C10: the type of a returned section is the lower-cased form of the
    enumeration value whose markers were matched, the markers being built
    from its upper-cased form; it is therefore a string that lower-casing
    leaves unchanged, and it differs from every declared value that is not
    entirely in lower case, the matched one included. *)
Theorem C10_section_type_is_lower_case :
  forall (OutputType : list string) (text : string) (s : SectionT),
    extractSection OutputType text = Some s ->
    (exists v i,
        In v OutputType
        /\ extractType text (JS.toUpperCase v) = Some s
        /\ occursAt text ("=====" ++ JS.toUpperCase v ++ "=====")%string i
        /\ type s = JS.toLowerCase (JS.toUpperCase v)
        /\ type s = JS.toLowerCase v
        /\ (JS.toLowerCase v <> v -> type s <> v))
    /\ JS.toLowerCase (type s) = type s
    /\ (forall v, In v OutputType -> JS.toLowerCase v <> v -> type s <> v).
Proof.
  intros OutputType text s H.
  apply scanTypes_Some in H as (pre & t & post & Hsplit & _ & Ht).
  assert (Hin : In t (map JS.toUpperCase OutputType))
    by (rewrite Hsplit; apply in_elt).
  apply in_map_iff in Hin as (v & <- & Hv).
  pose proof (extractType_type _ _ _ Ht) as Hty.
  assert (Hlow : JS.toLowerCase (type s) = type s)
    by (rewrite Hty; apply toLowerCase_idem).
  split; [|split; [exact Hlow | intros u _ Hu E; apply Hu; congruence]].
  assert (Hocc : exists i,
             occursAt text ("=====" ++ JS.toUpperCase v ++ "=====")%string i).
  { pose proof Ht as Ht'. unfold extractType in Ht'.
    rewrite startMarkerOf_upper in Ht'.
    destruct (Z.eqb_spec (JS.indexOf text (startMarkerOf v) 0) (-1)) as [|Hs];
      [discriminate|].
    destruct (indexOf_found _ _ _ _ eq_refl Hs) as (_ & Hso & _).
    eexists. exact Hso. }
  destruct Hocc as (i & Hi).
  exists v, i. split; [exact Hv|]. split; [exact Ht|]. split; [exact Hi|].
  split; [exact Hty|]. split; [now rewrite <- toLowerCase_toUpperCase|].
  intros Hne E. apply Hne. congruence.
Qed.

Lemma C10_section_type_is_lower_case_witness :
  extractSection ["SQL"; "Text"] "=====TEXT=====hi=====END TEXT====="
  = Some (mkSection "text" "hi")
  /\ JS.toLowerCase "text" = "text"
  /\ "text" <> "Text".
Proof.
  assert (H : extractSection ["SQL"; "Text"] "=====TEXT=====hi=====END TEXT====="
              = Some (mkSection "text" "hi")) by reflexivity.
  split; [exact H|].
  destruct (C10_section_type_is_lower_case _ _ _ H) as (_ & Hlow & Hall).
  split; [exact Hlow|].
  apply (Hall "Text"); [right; left; reflexivity | discriminate].
Defined.

(** * Further properties of the code *)

(** ** [extractSection]: which markers are used, and the content *)

Lemma JS_substring_in_range (text : string) (a b : Z) :
  0 <= a <= b -> b <= Z.of_nat (String.length text) ->
  JS.substring text a b = String.substring (Z.to_nat a) (Z.to_nat (b - a)) text.
Proof.
  intros Hab Hb. unfold JS.substring.
  replace (Z.min (Z.max a 0) (Z.of_nat (String.length text))) with a by lia.
  replace (Z.min (Z.max b 0) (Z.of_nat (String.length text))) with b by lia.
  replace (Z.min a b) with a by lia.
  replace (Z.max a b) with b by lia.
  reflexivity.
Qed.

Lemma indexOf_first (text pattern : string) (from : Z) (p : nat) :
  JS.indexOf text pattern from <> -1 ->
  (Nat.min (Z.to_nat from) (String.length text) <= p)%nat ->
  (p < Z.to_nat (JS.indexOf text pattern from))%nat ->
  ~ occursAt text pattern p.
Proof.
  unfold JS.indexOf, occursAt.
  destruct (index _ pattern text) as [k|] eqn:E; [|congruence].
  rewrite Nat2Z.id. intros _ Hle Hlt.
  exact (index_correct2 _ _ _ _ E p Hle Hlt).
Qed.

Lemma endMarkerOf_nonempty (v : string) : endMarkerOf v <> EmptyString.
Proof. discriminate. Qed.

Lemma extractType_first_markers (text t : string) (s : SectionT) :
  extractType text t = Some s ->
  exists i j : nat,
    occursAt text (startMarkerOf t) i
    /\ (forall p, (p < i)%nat -> ~ occursAt text (startMarkerOf t) p)
    /\ (i + String.length (startMarkerOf t) <= j)%nat
    /\ occursAt text (endMarkerOf t) j
    /\ (forall p, (i + String.length (startMarkerOf t) <= p)%nat -> (p < j)%nat ->
                  ~ occursAt text (endMarkerOf t) p)
    /\ s = mkSection (JS.toLowerCase t)
             (JS.trim (String.substring (i + String.length (startMarkerOf t))
                         (j - (i + String.length (startMarkerOf t))) text)).
Proof.
  unfold extractType.
  set (si := JS.indexOf text (startMarkerOf t) 0).
  destruct (Z.eqb_spec si (-1)) as [|Hs]; [discriminate|].
  set (cs := si + Z.of_nat (String.length (startMarkerOf t))).
  set (ei := JS.indexOf text (endMarkerOf t) cs).
  destruct (Z.eqb_spec ei (-1)) as [|He]; [discriminate|].
  intros H. injection H as <-.
  destruct (indexOf_found text (startMarkerOf t) 0 si eq_refl Hs) as (Hs0 & Hso & _).
  destruct (indexOf_found text (endMarkerOf t) cs ei eq_refl He) as (He0 & Heo & Hle).
  pose proof (occursAt_fits _ _ _ (startMarkerOf_nonempty t) Hso) as Hfs.
  pose proof (occursAt_fits _ _ _ (endMarkerOf_nonempty t) Heo) as Hfe.
  assert (Hcs : cs = Z.of_nat (Z.to_nat si + String.length (startMarkerOf t)))
    by (unfold cs; lia).
  exists (Z.to_nat si), (Z.to_nat ei).
  split; [exact Hso|]. split.
  { intros p Hp. apply (indexOf_first text (startMarkerOf t) 0 p Hs); [simpl; lia|].
    exact Hp. }
  split; [lia|]. split; [exact Heo|]. split.
  { intros p Hp1 Hp2. apply (indexOf_first text (endMarkerOf t) cs p He); [lia|].
    exact Hp2. }
  f_equal. f_equal. rewrite JS_substring_in_range by lia.
  f_equal; lia.
Qed.

(** ** [trim] leaves nothing to trim *)

Lemma trimEnd_idem (s : string) : JS.trimEnd (JS.trimEnd s) = JS.trimEnd s.
Proof.
  induction s as [|c s IH]; [reflexivity|].
  simpl. destruct (JS.trimEnd s) as [|d r] eqn:E.
  - destruct (JS.isWhiteSpace c) eqn:W; simpl; [reflexivity | now rewrite W].
  - change (JS.trimEnd (String c (String d r)))
      with (match JS.trimEnd (String d r) with
            | EmptyString =>
                if JS.isWhiteSpace c then EmptyString else String c EmptyString
            | r0 => String c r0
            end).
    now rewrite IH.
Qed.

Lemma trimStart_first (s : string) (c : ascii) :
  firstChar (JS.trimStart s) = Some c -> JS.isWhiteSpace c = false.
Proof.
  induction s as [|d s IH]; simpl; [discriminate|].
  destruct (JS.isWhiteSpace d) eqn:W; [exact IH|].
  unfold firstChar. simpl. intros H; injection H as <-. exact W.
Qed.

Lemma trimEnd_first (s : string) (c : ascii) :
  firstChar s = Some c -> JS.isWhiteSpace c = false ->
  firstChar (JS.trimEnd s) = Some c.
Proof.
  destruct s as [|d s]; [discriminate|].
  unfold firstChar. simpl. intros H; injection H as ->. intros W.
  destruct (JS.trimEnd s); [now rewrite W | reflexivity].
Qed.

Lemma trimStart_clean (s : string) :
  (forall c, firstChar s = Some c -> JS.isWhiteSpace c = false) ->
  JS.trimStart s = s.
Proof.
  destruct s as [|d s]; [reflexivity|].
  intros H. simpl. now rewrite (H d eq_refl).
Qed.

Lemma trimEnd_first_inv (s : string) (c : ascii) :
  firstChar (JS.trimEnd s) = Some c -> firstChar s = Some c.
Proof.
  destruct s as [|d s]; [discriminate|].
  unfold firstChar. simpl.
  destruct (JS.trimEnd s); [destruct (JS.isWhiteSpace d); [discriminate|] |]; auto.
Qed.

Lemma trimEnd_last (s : string) (c : ascii) :
  lastChar (JS.trimEnd s) = Some c -> JS.isWhiteSpace c = false.
Proof.
  induction s as [|d s IH]; simpl; [discriminate|].
  destruct (JS.trimEnd s) as [|d' r] eqn:E.
  - destruct (JS.isWhiteSpace d) eqn:W; simpl; [discriminate|].
    intros H; injection H as <-. exact W.
  - exact IH.
Qed.

Lemma trim_first (s : string) (c : ascii) :
  firstChar (JS.trim s) = Some c -> JS.isWhiteSpace c = false.
Proof.
  unfold JS.trim. intros H. apply trimEnd_first_inv in H.
  exact (trimStart_first _ _ H).
Qed.

Lemma trim_idem (s : string) : JS.trim (JS.trim s) = JS.trim s.
Proof.
  unfold JS.trim.
  rewrite (trimStart_clean (JS.trimEnd (JS.trimStart s))).
  - apply trimEnd_idem.
  - intros c H. apply trimEnd_first_inv in H. exact (trimStart_first _ _ H).
Qed.

(** X1: the section returned comes from the first start marker of its type
    in the text and from the first end marker behind it, and its content is
    the text between the two, trimmed. *)
Theorem X1_section_between_first_markers :
  forall (OutputType : list string) (text : string) (s : SectionT),
    extractSection OutputType text = Some s ->
    exists (v : string) (i j : nat),
      In v OutputType
      /\ type s = JS.toLowerCase v
      /\ occursAt text (startMarkerOf v) i
      /\ (forall p, (p < i)%nat -> ~ occursAt text (startMarkerOf v) p)
      /\ (i + String.length (startMarkerOf v) <= j)%nat
      /\ occursAt text (endMarkerOf v) j
      /\ (forall p, (i + String.length (startMarkerOf v) <= p)%nat -> (p < j)%nat ->
                    ~ occursAt text (endMarkerOf v) p)
      /\ content s
         = JS.trim (String.substring (i + String.length (startMarkerOf v))
                      (j - (i + String.length (startMarkerOf v))) text).
Proof.
  intros OutputType text s H.
  apply scanTypes_Some in H as (pre & t & post & Hsplit & _ & Ht).
  assert (Hin : In t (map JS.toUpperCase OutputType))
    by (rewrite Hsplit; apply in_elt).
  apply in_map_iff in Hin as (v & <- & Hv).
  apply extractType_first_markers in Ht.
  rewrite startMarkerOf_upper, endMarkerOf_upper, toLowerCase_toUpperCase in Ht.
  destruct Ht as (i & j & A & B & C & D & E & ->).
  exists v, i, j. repeat split; auto.
Qed.

Lemma X1_section_between_first_markers_witness :
  extractSection OutputType_values
    "=====TEXT=====a=====END TEXT==========TEXT=====b=====END TEXT====="
  = Some (mkSection "text" "a")
  /\ exists (v : string) (i j : nat),
       In v OutputType_values
       /\ "text" = JS.toLowerCase v
       /\ occursAt "=====TEXT=====a=====END TEXT==========TEXT=====b=====END TEXT====="
            (startMarkerOf v) i
       /\ "a" = JS.trim (String.substring (i + String.length (startMarkerOf v))
                           (j - (i + String.length (startMarkerOf v)))
                           "=====TEXT=====a=====END TEXT==========TEXT=====b=====END TEXT=====").
Proof.
  assert (H : extractSection OutputType_values
                "=====TEXT=====a=====END TEXT==========TEXT=====b=====END TEXT====="
              = Some (mkSection "text" "a")) by reflexivity.
  split; [exact H|].
  destruct (X1_section_between_first_markers _ _ _ H)
    as (v & i & j & A & B & C & _ & _ & _ & _ & D).
  exists v, i, j. repeat split; assumption.
Defined.

(** X2: the content of a returned section has nothing left to trim: trimming
    it again changes nothing, and it neither starts nor ends with white
    space. *)
Theorem X2_content_is_trimmed :
  forall (OutputType : list string) (text : string) (s : SectionT),
    extractSection OutputType text = Some s ->
    JS.trim (content s) = content s
    /\ (forall c, firstChar (content s) = Some c -> JS.isWhiteSpace c = false)
    /\ (forall c, lastChar (content s) = Some c -> JS.isWhiteSpace c = false).
Proof.
  intros OutputType text s H.
  apply scanTypes_Some in H as (pre & t & post & _ & _ & Ht).
  apply extractType_first_markers in Ht as (i & j & _ & _ & _ & _ & _ & ->).
  cbn [content].
  split; [apply trim_idem|]. split.
  - intros c. apply trim_first.
  - intros c. unfold JS.trim. apply trimEnd_last.
Qed.

Lemma X2_content_is_trimmed_witness :
  extractSection OutputType_values "=====TEXT=====  hi there  =====END TEXT====="
  = Some (mkSection "text" "hi there")
  /\ JS.trim "hi there" = "hi there".
Proof.
  assert (H : extractSection OutputType_values
                "=====TEXT=====  hi there  =====END TEXT====="
              = Some (mkSection "text" "hi there")) by reflexivity.
  split; [exact H|].
  exact (proj1 (X2_content_is_trimmed _ _ _ H)).
Defined.

(** ** Framing a content and extracting it again *)

Lemma prefix_append (p s : string) : prefix p (p ++ s)%string = true.
Proof.
  induction p as [|c p IH]; simpl; [now destruct s|].
  destruct (ascii_dec c c); [exact IH | congruence].
Qed.

Lemma index_0_append (p s : string) : index 0 p (p ++ s)%string = Some 0%nat.
Proof.
  pose proof (prefix_append p s) as H.
  destruct (p ++ s)%string as [|b t] eqn:E.
  - destruct p; [reflexivity | discriminate].
  - cbn [index]. now rewrite H.
Qed.

Lemma index_skip (a p b : string) :
  index (String.length a) p (a ++ b)%string
  = option_map (fun k => (String.length a + k)%nat) (index 0 p b).
Proof.
  induction a as [|c a IH]; simpl.
  - now destruct (index 0 p b).
  - rewrite IH. now destruct (index 0 p b).
Qed.

Lemma substring_skip (a b : string) (n : nat) :
  String.substring (String.length a) n (a ++ b)%string = String.substring 0 n b.
Proof. induction a as [|c a IH]; simpl; [reflexivity | exact IH]. Qed.

Lemma substring_prefix (c d : string) :
  String.substring 0 (String.length c) (c ++ d)%string = c.
Proof.
  induction c as [|x c IH]; simpl; [now destruct d | now rewrite IH].
Qed.

Lemma length_append (a b : string) :
  String.length (a ++ b)%string = (String.length a + String.length b)%nat.
Proof. induction a as [|c a IH]; simpl; [reflexivity | now rewrite IH]. Qed.

Lemma index_first_occurrence (p s : string) (k : nat) :
  p <> EmptyString ->
  occursAt s p k ->
  (forall q, (q < k)%nat -> ~ occursAt s p q) ->
  index 0 p s = Some k.
Proof.
  intros Hne Hk Hfirst.
  destruct (index 0 p s) as [m|] eqn:E.
  - f_equal.
    destruct (Nat.lt_trichotomy m k) as [Hlt|[Heq|Hgt]]; [|exact Heq|].
    + exfalso. exact (Hfirst m Hlt (index_correct1 _ _ _ _ E)).
    + exfalso. exact (index_correct2 _ _ _ _ E k (Nat.le_0_l k) Hgt Hk).
  - exfalso. exact (index_correct3 _ k _ _ E Hne (Nat.le_0_l k) Hk).
Qed.

(** X3: framing and extracting is a round trip.  A text that starts with the
    start marker of a type, followed by a content, the end marker and
    anything else, gives for that type the section with the content trimmed,
    provided the end marker does not occur earlier behind the start marker;
    this is the result of the whole scan when the type comes first in the
    enumeration. *)
Theorem X3_frame_then_extract :
  forall (OutputType : list string) (v c rest : string),
    (forall q, (q < String.length c)%nat ->
               ~ occursAt (c ++ endMarkerOf v ++ rest)%string (endMarkerOf v) q) ->
    extractSection (v :: OutputType)
      (startMarkerOf v ++ c ++ endMarkerOf v ++ rest)%string
    = Some (mkSection (JS.toLowerCase v) (JS.trim c)).
Proof.
  intros OutputType v c rest Hfirst.
  unfold extractSection. cbn [map scanTypes].
  assert (H : extractType (startMarkerOf v ++ c ++ endMarkerOf v ++ rest)%string v
              = Some (mkSection (JS.toLowerCase v) (JS.trim c))).
  { unfold extractType.
    set (text := (startMarkerOf v ++ c ++ endMarkerOf v ++ rest)%string).
    assert (Hs : JS.indexOf text (startMarkerOf v) 0 = 0).
    { unfold JS.indexOf. simpl Z.to_nat. rewrite Nat.min_0_l.
      unfold text. now rewrite index_0_append. }
    rewrite Hs. simpl (0 =? -1). cbv iota.
    assert (Hocc : occursAt (c ++ endMarkerOf v ++ rest)%string (endMarkerOf v)
                     (String.length c)).
    { unfold occursAt. rewrite substring_skip. apply substring_prefix. }
    assert (He : JS.indexOf text (endMarkerOf v)
                   (0 + Z.of_nat (String.length (startMarkerOf v)))
                 = Z.of_nat (String.length (startMarkerOf v) + String.length c)).
    { unfold JS.indexOf.
      replace (Nat.min (Z.to_nat (0 + Z.of_nat (String.length (startMarkerOf v))))
                 (String.length text))
        with (String.length (startMarkerOf v))
        by (unfold text; rewrite length_append; lia).
      unfold text. rewrite index_skip.
      now rewrite (index_first_occurrence _ _ _ (endMarkerOf_nonempty v) Hocc Hfirst). }
    rewrite He.
    destruct (Z.eqb_spec
                (Z.of_nat (String.length (startMarkerOf v) + String.length c)) (-1));
      [lia|].
    f_equal. f_equal. f_equal.
    rewrite JS_substring_in_range.
    - replace (Z.to_nat (0 + Z.of_nat (String.length (startMarkerOf v))))
        with (String.length (startMarkerOf v)) by lia.
      replace (Z.to_nat (Z.of_nat (String.length (startMarkerOf v) + String.length c)
                         - (0 + Z.of_nat (String.length (startMarkerOf v)))))
        with (String.length c) by lia.
      unfold text. rewrite substring_skip. apply substring_prefix.
    - lia.
    - unfold text. rewrite !length_append. lia. }
  rewrite extractType_upper, H. simpl. reflexivity.
Qed.

Lemma X3_frame_then_extract_witness :
  extractSection ("text" :: ["sql"])
    (startMarkerOf "text" ++ " hi " ++ endMarkerOf "text" ++ "=====SQL=====")%string
  = Some (mkSection "text" "hi").
Proof.
  apply (X3_frame_then_extract ["sql"] "text" " hi " "=====SQL=====").
  intros q Hq.
  do 4 (destruct q as [|q]; [vm_compute; discriminate|]).
  simpl in Hq. lia.
Defined.

(** ** [sendMessage] over all its ways out *)

Ltac sendMessage_stream :=
  rewrite readLoop_streamEntry;
  match goal with
  | |- context [readOutcome ?r] =>
      destruct (readOutcome r) eqn:?;
      [ match goal with
        | |- context [titleResponse ?w] =>
            destruct (titleResponse w) as [|[|] ?title] eqn:?;
            try match goal with
                | |- context [(?t =? "")%string] => destruct (t =? "")%string eqn:?
                end
        end
      | ]
  end.

Ltac sendMessage_paths w st :=
  unfold sendMessage, sendEntry, nameNotebook;
  change (selectedNotebookId (setIsSendingMessage true st)) with (selectedNotebookId st);
  destruct (isSendingMessage st) eqn:?;
  [ | destruct (selectedNotebookId st =? "")%string eqn:?;
      [ destruct (notebookInsertError w) eqn:? | ];
      try (destruct (entryInsertError w) eqn:?;
           [ | destruct (searchResponse w) as [|[|] [?reads|]] eqn:?;
               try sendMessage_stream ]) ];
  cbn [fst snd].

(** X4: a submission that starts from the idle state and returns leaves the
    busy flag down, whichever way it went, so that the next submission is
    accepted. *)
Theorem X4_busy_flag_down_on_return :
  forall (OutputType : list string) (SQL projectId : string) (w : World) (st : UIState),
    isSendingMessage st = false ->
    snd (sendMessage OutputType SQL projectId w st) = Returned ->
    isSendingMessage (fst (sendMessage OutputType SQL projectId w st)) = false.
Proof.
  intros OutputType SQL projectId w st Hidle.
  sendMessage_paths w st; try discriminate; reflexivity.
Qed.

Lemma X4_busy_flag_down_on_return_witness :
  let w := mkWorld "nb" false "e" "t" false (Response false None) (Response true "") in
  let st := mkState [] "" [] "show sales" false [] in
  snd (sendMessage OutputType_values OutputType_SQL_value "p" w st) = Returned
  /\ isSendingMessage (fst (sendMessage OutputType_values OutputType_SQL_value "p" w st))
     = false.
Proof.
  intros w st. split; [reflexivity|].
  exact (X4_busy_flag_down_on_return
           OutputType_values OutputType_SQL_value "p" w st eq_refl eq_refl).
Defined.

(** X5: when the entry has been persisted and the search request rejects,
    or a read of the stream rejects, the call ends with the rejection and
    the busy flag stays up: every later submission is then ignored and
    changes nothing. *)
Theorem X5_rejection_leaves_busy :
  forall (OutputType : list string) (SQL projectId : string) (w w' : World)
         (st : UIState),
    isSendingMessage st = false ->
    (selectedNotebookId st =? "")%string && notebookInsertError w = false ->
    entryInsertError w = false ->
    (searchResponse w = FetchRejects
     \/ exists reads, searchResponse w = Response true (Some reads)
                      /\ readOutcome reads = Thrown) ->
    let st' := fst (sendMessage OutputType SQL projectId w st) in
    snd (sendMessage OutputType SQL projectId w st) = Thrown
    /\ isSendingMessage st' = true
    /\ sendMessage OutputType SQL projectId w' st' = (st', Returned).
Proof.
  intros OutputType SQL projectId w w' st Hidle Hnb Hentry Hrej.
  assert (H : snd (sendMessage OutputType SQL projectId w st) = Thrown
              /\ isSendingMessage (fst (sendMessage OutputType SQL projectId w st))
                 = true).
  { destruct Hrej as [Hrej | (reads & Hrej & Hout)].
    - sendMessage_paths w st; simpl in Hnb; try congruence; split; reflexivity.
    - sendMessage_paths w st; simpl in Hnb; try congruence;
        try (injection Hrej as <-); try congruence; split; reflexivity. }
  cbv zeta. destruct H as [H1 H2]. split; [exact H1|]. split; [exact H2|].
  unfold sendMessage at 1. now rewrite H2.
Qed.

Lemma X5_rejection_leaves_busy_witness :
  let w := mkWorld "nb" false "e" "t" false
             (Response true (Some [ReadValue "=====TEXT=====hi=====END TEXT====="; ReadRejects]))
             (Response true "") in
  let st := mkState [] "" [] "show sales" false [] in
  let st' := fst (sendMessage OutputType_values OutputType_SQL_value "p" w st) in
  isSendingMessage st' = true
  /\ sendMessage OutputType_values OutputType_SQL_value "p" w st' = (st', Returned).
Proof.
  intros w st.
  exact (proj2 (X5_rejection_leaves_busy
                  OutputType_values OutputType_SQL_value "p" w w st
                  eq_refl eq_refl eq_refl
                  (or_intror (ex_intro _ _ (conj eq_refl eq_refl))))).
Defined.

(** X6: a call of [sendMessage] shows at most one notice, and none at all
    when it ends with a rejection: a request or a read that rejects goes
    unreported. *)
Theorem X6_at_most_one_notice :
  forall (OutputType : list string) (SQL projectId : string) (w : World) (st : UIState),
  exists shown,
    notifications (fst (sendMessage OutputType SQL projectId w st))
    = notifications st ++ shown
    /\ (List.length shown <= 1)%nat
    /\ (snd (sendMessage OutputType SQL projectId w st) = Thrown -> shown = []).
Proof.
  intros OutputType SQL projectId w st.
  sendMessage_paths w st; cbn [notifications notifications_show setIsSendingMessage
    setNotebookEntries setUserSearch setNotebooks setSelectedNotebookId];
    first [ exists []; rewrite app_nil_r; repeat split; simpl; auto; fail
          | eexists; split; [reflexivity|]; split; [simpl; lia | discriminate] ].
Qed.

Lemma sendMessage_entries_added :
  forall (OutputType : list string) (SQL projectId : string) (w : World) (st : UIState),
  exists added,
    notebookEntries (fst (sendMessage OutputType SQL projectId w st))
    = notebookEntries st ++ added
    /\ (List.length added <= 1)%nat
    /\ Forall (fun e =>
                 id e = v4_entry w /\ createdAt e = now w
                 /\ userPrompt e = userSearch st
                 /\ notebookId e
                    = selectedNotebookId (fst (sendMessage OutputType SQL projectId w st)))
              added.
Proof.
  intros OutputType SQL projectId w st.
  sendMessage_paths w st;
    cbn [notebookEntries selectedNotebookId notifications_show setIsSendingMessage
           setNotebookEntries setUserSearch setNotebooks setSelectedNotebookId
           userSearch nb_id];
    rewrite ?removelast_last;
    first
      [ exists []; rewrite app_nil_r; repeat split; auto; fail
      | eexists; split; [reflexivity|]; split; [simpl; lia|];
        constructor; [|constructor];
        first [ repeat split; reflexivity
              | match goal with
                | |- context [streamEntry ?o ?q ?ms ?e] =>
                    destruct (streamEntry_fields o q ms e) as (A & B & C & D);
                    cbv zeta in A, B, C, D; rewrite A, B, C, D; repeat split; reflexivity
                end ] ].
Qed.

(** X7: a call of [sendMessage] never touches the entries that were there:
    they stay as they are and in their order, and at most one entry is added
    behind them.  The added entry carries the new id and date, the text of the
    search box as its prompt, and the id of the notebook that is selected
    when the call ends. *)
Theorem X7_previous_entries_kept :
  forall (OutputType : list string) (SQL projectId : string) (w : World) (st : UIState),
  exists added,
    notebookEntries (fst (sendMessage OutputType SQL projectId w st))
    = notebookEntries st ++ added
    /\ (List.length added <= 1)%nat
    /\ Forall (fun e =>
                 id e = v4_entry w /\ createdAt e = now w
                 /\ userPrompt e = userSearch st
                 /\ notebookId e
                    = selectedNotebookId (fst (sendMessage OutputType SQL projectId w st)))
              added.
Proof. exact sendMessage_entries_added. Qed.

(** X8: the text of the search box is cleared once the new entry has been
    persisted, and only then: when the call is ignored, or creating the
    notebook or persisting the entry fails, the text is kept for another
    try. *)
Theorem X8_search_text_cleared_once_persisted :
  forall (OutputType : list string) (SQL projectId : string) (w : World) (st : UIState),
    userSearch (fst (sendMessage OutputType SQL projectId w st))
    = if isSendingMessage st then userSearch st
      else if (selectedNotebookId st =? "")%string && notebookInsertError w
           then userSearch st
           else if entryInsertError w then userSearch st else "".
Proof.
  intros OutputType SQL projectId w st.
  sendMessage_paths w st; reflexivity.
Qed.

(** ** The notebooks over a submission *)

Lemma retitle_keeps (selected title : string) (nb : Notebook) :
  nb_id (retitle selected title nb) = nb_id nb
  /\ nb_projectId (retitle selected title nb) = nb_projectId nb
  /\ (nb_id nb <> selected -> retitle selected title nb = nb).
Proof.
  unfold retitle. destruct (String.eqb_spec (nb_id nb) selected);
    simpl; repeat split; auto; intros; contradiction.
Qed.

Lemma find_retitle (selected title : string) (l : list Notebook) :
  (exists nb, In nb l /\ nb_id nb = selected) ->
  exists nb',
    find (fun x => (nb_id x =? selected)%string) (map (retitle selected title) l)
    = Some nb'
    /\ nb_title nb' = title.
Proof.
  induction l as [|n l IH]; intros (nb & Hin & Hid); [contradiction|].
  simpl map. unfold retitle at 1.
  destruct (nb_id n =? selected)%string eqn:E.
  - cbn [find nb_id]. rewrite E. eexists. split; reflexivity.
  - cbn [find]. rewrite E. apply IH.
    destruct Hin as [->|Hin]; [|now exists nb].
    apply String.eqb_neq in E. contradiction.
Qed.

Lemma find_retitle_none (selected title : string) (l : list Notebook) :
  find (fun x => (nb_id x =? selected)%string) l = None ->
  find (fun x => (nb_id x =? selected)%string) (map (retitle selected title) l) = None.
Proof.
  induction l as [|n l IH]; simpl; [reflexivity|].
  unfold retitle at 1.
  destruct (nb_id n =? selected)%string eqn:E; [discriminate|].
  rewrite E. exact IH.
Qed.

Lemma sendMessage_notebooks_kept :
  forall (OutputType : list string) (SQL projectId : string) (w : World) (st : UIState)
         (k : nat) (nb : Notebook),
    nth_error (notebooks st) k = Some nb ->
    exists nb',
      nth_error (notebooks (fst (sendMessage OutputType SQL projectId w st))) k = Some nb'
      /\ nb_id nb' = nb_id nb
      /\ nb_projectId nb' = nb_projectId nb
      /\ (nb_id nb
          <> selectedNotebookId (fst (sendMessage OutputType SQL projectId w st)) ->
          nb' = nb).
Proof.
  intros OutputType SQL projectId w st k nb Hk.
  assert (Hlt : (k < List.length (notebooks st))%nat)
    by (apply nth_error_Some; congruence).
  sendMessage_paths w st;
    cbn [notebooks selectedNotebookId notifications_show setIsSendingMessage
           setNotebookEntries setUserSearch setNotebooks setSelectedNotebookId nb_id];
    rewrite ?nth_error_map, ?nth_error_app1 by exact Hlt; rewrite ?Hk;
    first [ exists nb; repeat split; auto; fail
          | cbn [option_map];
            match goal with
            | |- context [if (nb_id nb =? ?sel)%string then _ else _] =>
                exists (retitle sel title nb); split; [reflexivity|];
                apply retitle_keeps
            end ].
Qed.

(** X9: a call of [sendMessage] keeps every notebook of the list at its
    place, with its id and its project; a notebook whose id is not the one
    selected when the call ends is not changed at all, and the list grows by
    at most one notebook. *)
Theorem X9_notebooks_kept :
  forall (OutputType : list string) (SQL projectId : string) (w : World) (st : UIState),
    (List.length (notebooks st)
     <= List.length (notebooks (fst (sendMessage OutputType SQL projectId w st)))
     <= List.length (notebooks st) + 1)%nat
    /\ forall (k : nat) (nb : Notebook),
         nth_error (notebooks st) k = Some nb ->
         exists nb',
           nth_error (notebooks (fst (sendMessage OutputType SQL projectId w st))) k
           = Some nb'
           /\ nb_id nb' = nb_id nb
           /\ nb_projectId nb' = nb_projectId nb
           /\ (nb_id nb
               <> selectedNotebookId (fst (sendMessage OutputType SQL projectId w st)) ->
               nb' = nb).
Proof.
  intros OutputType SQL projectId w st. split.
  - sendMessage_paths w st;
      cbn [notebooks notifications_show setIsSendingMessage
             setNotebookEntries setUserSearch setNotebooks setSelectedNotebookId];
      rewrite ?length_map, ?length_app; simpl; lia.
  - apply sendMessage_notebooks_kept.
Qed.

Lemma titleValue_retitled (selected title : string) (l : list Notebook)
  (es : list NotebookEntry) (us : string) (b : bool) (ns : list string) :
  (exists nb, In nb l /\ nb_id nb = selected) ->
  titleValue (mkState (map (retitle selected title) l) selected es us b ns) = title.
Proof.
  intros H. unfold titleValue. cbn [notebooks selectedNotebookId].
  destruct (find_retitle selected title l H) as (nb' & -> & Ht). exact Ht.
Qed.

(** X10: after a submission that went through and whose title request
    answered with a title, the title input shows that title, for a notebook
    created by the submission as for a selected notebook of the list. *)
Theorem X10_generated_title_is_shown :
  forall (OutputType : list string) (SQL projectId : string) (w : World) (st : UIState)
         (reads : list ReadResult) (title : string),
    isSendingMessage st = false ->
    (selectedNotebookId st =? "")%string && notebookInsertError w = false ->
    entryInsertError w = false ->
    searchResponse w = Response true (Some reads) ->
    readOutcome reads = Returned ->
    titleResponse w = Response true title ->
    title <> "" ->
    (selectedNotebookId st = ""
     \/ exists nb, In nb (notebooks st) /\ nb_id nb = selectedNotebookId st) ->
    titleValue (fst (sendMessage OutputType SQL projectId w st)) = title.
Proof.
  intros OutputType SQL projectId w st reads title
         Hidle Hnb Hentry Hsearch Hout Htitle Hne Hsel.
  unfold sendMessage, sendEntry, nameNotebook.
  change (selectedNotebookId (setIsSendingMessage true st)) with (selectedNotebookId st).
  rewrite Hidle, Hentry, Hsearch, !readLoop_streamEntry, Hout, Htitle.
  apply String.eqb_neq in Hne. rewrite Hne.
  destruct (selectedNotebookId st =? "")%string eqn:E.
  - simpl in Hnb. rewrite Hnb. cbn [fst].
    apply (titleValue_retitled (v4_notebook w) title
             (notebooks st ++ [mkNotebook (v4_notebook w) "Untitled Notebook" projectId])).
    eexists. split; [apply in_elt | reflexivity].
  - cbn [fst].
    apply (titleValue_retitled (selectedNotebookId st) title (notebooks st)).
    destruct Hsel as [Hsel|Hsel]; [|exact Hsel].
    apply String.eqb_neq in E. contradiction.
Qed.

Lemma X10_generated_title_is_shown_witness :
  let w := mkWorld "nb" false "e" "t" false
             (Response true (Some [ReadValue "=====TEXT=====hi=====END TEXT====="]))
             (Response true "Sales by month") in
  let st := mkState [mkNotebook "n" "Untitled Notebook" "p"] "n" [] "show sales" false [] in
  titleValue (fst (sendMessage OutputType_values OutputType_SQL_value "p" w st))
  = "Sales by month".
Proof.
  intros w st.
  refine (X10_generated_title_is_shown
            OutputType_values OutputType_SQL_value "p" w st _ "Sales by month"
            eq_refl eq_refl eq_refl eq_refl eq_refl eq_refl _ _).
  - discriminate.
  - right. eexists. split; [left; reflexivity | reflexivity].
Defined.

Lemma filter_keeps_all {A : Type} (f : A -> bool) (l : list A) :
  (forall x, In x l -> f x = true) -> filter f l = l.
Proof.
  induction l as [|x l IH]; intros H; simpl; [reflexivity|].
  rewrite (H x (or_introl eq_refl)), IH; [reflexivity|].
  intros y Hy. apply H. now right.
Qed.

Lemma filter_drops_all {A : Type} (f : A -> bool) (l : list A) :
  (forall x, In x l -> f x = false) -> filter f l = [].
Proof.
  induction l as [|x l IH]; intros H; simpl; [reflexivity|].
  rewrite (H x (or_introl eq_refl)). apply IH.
  intros y Hy. apply H. now right.
Qed.

(** X11: submitting and then deleting the submitted entry gives back the
    list of entries as it was, provided the new id is not the id of an entry
    that was there. *)
Theorem X11_delete_after_submit :
  forall (OutputType : list string) (SQL projectId : string) (w : World) (st : UIState),
    (forall e, In e (notebookEntries st) -> id e <> v4_entry w) ->
    notebookEntries
      (onDeleteEntry (v4_entry w) (fst (sendMessage OutputType SQL projectId w st)))
    = notebookEntries st.
Proof.
  intros OutputType SQL projectId w st Hfresh.
  destruct (sendMessage_entries_added OutputType SQL projectId w st)
    as (added & Heq & _ & Hadded).
  unfold onDeleteEntry. cbn [notebookEntries setNotebookEntries].
  rewrite Heq, filter_app, filter_keeps_all, filter_drops_all.
  - apply app_nil_r.
  - intros e He. rewrite Forall_forall in Hadded.
    destruct (Hadded e He) as (Hid & _). rewrite Hid, String.eqb_refl. reflexivity.
  - intros e He. apply Hfresh in He. apply String.eqb_neq in He. now rewrite He.
Qed.

Lemma X11_delete_after_submit_witness :
  let w := mkWorld "nb" false "e2" "t" false
             (Response true (Some [ReadValue "=====TEXT=====hi=====END TEXT====="]))
             (Response true "") in
  let st := mkState [mkNotebook "n" "Notes" "p"] "n"
              [mkEntry "e1" "t0" "n" "first" [] []] "show sales" false [] in
  notebookEntries
    (onDeleteEntry "e2" (fst (sendMessage OutputType_values OutputType_SQL_value "p" w st)))
  = [mkEntry "e1" "t0" "n" "first" [] []].
Proof.
  intros w st.
  apply (X11_delete_after_submit OutputType_values OutputType_SQL_value "p" w st).
  intros e [<-|[]]. discriminate.
Defined.

(** X12: typing a title and reading the title input is a round trip when
    the selected notebook is in the list; the notebooks with another id are
    left as they are. *)
Theorem X12_typed_title_is_shown :
  forall (newTitle : string) (st : UIState),
    (exists nb, In nb (notebooks st) /\ nb_id nb = selectedNotebookId st) ->
    titleValue (onTitleChange newTitle st) = newTitle
    /\ (forall nb, In nb (notebooks st) -> nb_id nb <> selectedNotebookId st ->
                   In nb (notebooks (onTitleChange newTitle st)))
    /\ map nb_id (notebooks (onTitleChange newTitle st)) = map nb_id (notebooks st).
Proof.
  intros newTitle st H. split; [|split].
  - exact (titleValue_retitled (selectedNotebookId st) newTitle (notebooks st)
             (notebookEntries st) (userSearch st) (isSendingMessage st)
             (notifications st) H).
  - intros nb Hin Hid. unfold onTitleChange. cbn [notebooks setNotebooks].
    apply in_map_iff. exists nb. split; [|exact Hin].
    apply String.eqb_neq in Hid. now rewrite Hid.
  - unfold onTitleChange. cbn [notebooks setNotebooks]. rewrite map_map.
    apply map_ext. intros nb. now destruct (nb_id nb =? selectedNotebookId st)%string.
Qed.

Lemma X12_typed_title_is_shown_witness :
  let st := mkState [mkNotebook "a" "Alpha" "p"; mkNotebook "b" "Beta" "p"] "b"
              [] "" false [] in
  titleValue (onTitleChange "Gamma" st) = "Gamma".
Proof.
  intros st. apply (X12_typed_title_is_shown "Gamma" st).
  eexists. split; [right; left; reflexivity | reflexivity].
Defined.

(** X13: without a notebook with the selected id in the list, the title
    input shows ['New Notebook'] whatever is typed: the typed title is
    lost. *)
Theorem X13_typed_title_lost_without_notebook :
  forall (newTitle : string) (st : UIState),
    (forall nb, In nb (notebooks st) -> nb_id nb <> selectedNotebookId st) ->
    titleValue (onTitleChange newTitle st) = "New Notebook"
    /\ notebooks (onTitleChange newTitle st) = notebooks st.
Proof.
  intros newTitle st H.
  assert (Hn : notebooks (onTitleChange newTitle st) = notebooks st).
  { unfold onTitleChange. cbn [notebooks setNotebooks].
    rewrite <- (map_id (notebooks st)) at 2. apply map_ext_in.
    intros nb Hin. apply H in Hin. apply String.eqb_neq in Hin. now rewrite Hin. }
  split; [|exact Hn].
  unfold titleValue. rewrite Hn.
  change (selectedNotebookId (onTitleChange newTitle st)) with (selectedNotebookId st).
  destruct (find _ (notebooks st)) as [nb|] eqn:E; [|reflexivity].
  apply find_some in E as (Hin & Hid).
  apply String.eqb_eq in Hid. apply H in Hin. contradiction.
Qed.

Lemma X13_typed_title_lost_without_notebook_witness :
  let st := mkState [mkNotebook "a" "Alpha" "p"] "" [] "" false [] in
  titleValue (onTitleChange "Gamma" st) = "New Notebook".
Proof.
  intros st. apply (X13_typed_title_lost_without_notebook "Gamma" st).
  intros nb [<-|[]]. discriminate.
Defined.

(** ** A submission without a selected notebook *)

Lemma map_nb_id_retitle (selected title : string) (l : list Notebook) :
  map nb_id (map (retitle selected title) l) = map nb_id l.
Proof.
  rewrite map_map. apply map_ext. intros nb.
  unfold retitle. now destruct (nb_id nb =? selected)%string.
Qed.

Lemma sendMessage_without_notebook :
  forall (OutputType : list string) (SQL projectId : string) (w : World) (st : UIState),
    isSendingMessage st = false ->
    selectedNotebookId st = "" ->
    notebookInsertError w = false ->
    entryInsertError w = false ->
    let st' := fst (sendMessage OutputType SQL projectId w st) in
    selectedNotebookId st' = v4_notebook w
    /\ map nb_id (notebooks st') = map nb_id (notebooks st) ++ [v4_notebook w]
    /\ exists e,
         notebookEntries st' = notebookEntries st ++ [e]
         /\ id e = v4_entry w
         /\ notebookId e = v4_notebook w
         /\ userPrompt e = userSearch st.
Proof.
  intros OutputType SQL projectId w st Hidle Hsel Hnb Hentry. cbv zeta.
  sendMessage_paths w st; try congruence;
    try (rewrite Hsel in *; discriminate);
    cbn [notebooks notebookEntries selectedNotebookId notifications_show
           setIsSendingMessage setNotebookEntries setUserSearch setNotebooks
           setSelectedNotebookId userSearch nb_id];
    (split; [reflexivity|]);
    (split;
     [ first [ rewrite map_app; reflexivity
             | match goal with
               | |- map nb_id (map ?f ?l) = _ =>
                   change (map f l) with (map (retitle (v4_notebook w) title) l);
                   rewrite map_nb_id_retitle, map_app; reflexivity
               end ]
     | eexists; split; [reflexivity|];
       first [ repeat split; reflexivity
             | match goal with
               | |- context [streamEntry ?o ?q ?ms ?e] =>
                   destruct (streamEntry_fields o q ms e) as (A & B & C & D);
                   cbv zeta in A, B, C, D; rewrite A, C, D; repeat split; reflexivity
               end ] ]).
Qed.

(** X14: after "Start New Notebook", a submission that the store accepts
    creates a notebook behind the ones of the list and selects it, and the
    list of entries is the one new entry, which belongs to that notebook and
    carries the text of the search box. *)
Theorem X14_submit_after_start_new_notebook :
  forall (OutputType : list string) (SQL projectId : string) (w : World) (st : UIState),
    isSendingMessage st = false ->
    notebookInsertError w = false ->
    entryInsertError w = false ->
    let st' := fst (sendMessage OutputType SQL projectId w (startNewNotebook st)) in
    selectedNotebookId st' = v4_notebook w
    /\ map nb_id (notebooks st') = map nb_id (notebooks st) ++ [v4_notebook w]
    /\ exists e,
         notebookEntries st' = [e]
         /\ id e = v4_entry w
         /\ notebookId e = v4_notebook w
         /\ userPrompt e = userSearch st.
Proof.
  intros OutputType SQL projectId w st Hidle Hnb Hentry.
  exact (sendMessage_without_notebook OutputType SQL projectId w (startNewNotebook st)
           Hidle eq_refl Hnb Hentry).
Qed.

Lemma X14_submit_after_start_new_notebook_witness :
  let w := mkWorld "nb" false "e2" "t" false (Response false None) (Response true "") in
  let st := mkState [mkNotebook "n" "Notes" "p"] "n"
              [mkEntry "e1" "t0" "n" "first" [] []] "show sales" false [] in
  selectedNotebookId
    (fst (sendMessage OutputType_values OutputType_SQL_value "p" w (startNewNotebook st)))
  = "nb".
Proof.
  intros w st.
  exact (proj1 (X14_submit_after_start_new_notebook
                  OutputType_values OutputType_SQL_value "p" w st
                  eq_refl eq_refl eq_refl)).
Defined.

(** X15: a deletion of the selected notebook that is confirmed and that the
    store accepts removes the notebooks with that id and no other, and a
    submission that follows starts a new notebook with the one new entry;
    the deleted id is an id of the list again only if the new notebook was
    given it.  A deletion that is cancelled changes nothing, and one that the
    store refuses only shows a notice. *)
Theorem X15_delete_notebook_then_submit :
  forall (OutputType : list string) (SQL projectId : string) (w : World) (st : UIState),
    isSendingMessage st = false ->
    notebookInsertError w = false ->
    entryInsertError w = false ->
    let deleted := deleteNotebook true false st in
    let st' := fst (sendMessage OutputType SQL projectId w deleted) in
    (forall nb, In nb (notebooks deleted)
                <-> In nb (notebooks st) /\ nb_id nb <> selectedNotebookId st)
    /\ selectedNotebookId st' = v4_notebook w
    /\ (In (selectedNotebookId st) (map nb_id (notebooks st')) ->
        selectedNotebookId st = v4_notebook w)
    /\ (exists e, notebookEntries st' = [e] /\ notebookId e = v4_notebook w)
    /\ deleteNotebook false false st = st
    /\ deleteNotebook true true st = notifications_show "Failed to delete notebook" st.
Proof.
  intros OutputType SQL projectId w st Hidle Hnb Hentry. cbv zeta.
  assert (Hdel : forall nb, In nb (notebooks (deleteNotebook true false st))
                            <-> In nb (notebooks st) /\ nb_id nb <> selectedNotebookId st).
  { intros nb. unfold deleteNotebook.
    cbn [notebooks setNotebooks setSelectedNotebookId setNotebookEntries].
    rewrite filter_In, negb_true_iff, String.eqb_neq. reflexivity. }
  destruct (sendMessage_without_notebook OutputType SQL projectId w
              (deleteNotebook true false st) Hidle eq_refl Hnb Hentry)
    as (Hs & Hids & e & He & _ & Hn & _).
  split; [exact Hdel|]. split; [exact Hs|]. split; [|split; [|split; reflexivity]].
  - rewrite Hids, in_app_iff. intros [Hin|[Hin|[]]]; [|now symmetry].
    apply in_map_iff in Hin as (nb & Hid & Hin).
    apply Hdel in Hin as (_ & Hne). congruence.
  - exists e. split; [exact He | exact Hn].
Qed.

Lemma X15_delete_notebook_then_submit_witness :
  let w := mkWorld "nb" false "e2" "t" false (Response false None) (Response true "") in
  let st := mkState [mkNotebook "n" "Notes" "p"; mkNotebook "m" "More" "p"] "n"
              [mkEntry "e1" "t0" "n" "first" [] []] "show sales" false [] in
  map nb_id
    (notebooks (fst (sendMessage OutputType_values OutputType_SQL_value "p" w
                       (deleteNotebook true false st))))
  = ["m"; "nb"]
  /\ selectedNotebookId
       (fst (sendMessage OutputType_values OutputType_SQL_value "p" w
               (deleteNotebook true false st)))
     = "nb".
Proof.
  intros w st. split; [reflexivity|].
  exact (proj1 (proj2 (X15_delete_notebook_then_submit
                         OutputType_values OutputType_SQL_value "p" w st
                         eq_refl eq_refl eq_refl))).
Defined.

(** ** [formatHeader] *)

Lemma substring_all (s : string) : String.substring 0 (String.length s) s = s.
Proof. induction s as [|c s IH]; simpl; [reflexivity | now rewrite IH]. Qed.

Lemma capitalize_word (word : string) :
  (JS.toUpperCase (TableVisual.charAt0 word) ++ TableVisual.slice1 word)%string
  = match word with
    | EmptyString => EmptyString
    | String c rest => String (JS.upperChar c) rest
    end.
Proof.
  destruct word as [|c rest]; [reflexivity|].
  unfold TableVisual.charAt0, TableVisual.slice1. simpl.
  now rewrite Nat.sub_0_r, substring_all.
Qed.

Lemma concat_cons_char (a : ascii) (word : string) (words : list string) :
  String.concat " " (String a word :: words)
  = String a (String.concat " " (word :: words)).
Proof. destruct words; reflexivity. Qed.

Lemma split_scanHeader (header : string) :
  exists word words,
    TableVisual.split header = word :: words
    /\ String.concat " "
         (map (fun w => (JS.toUpperCase (TableVisual.charAt0 w)
                         ++ TableVisual.slice1 w)%string) (word :: words))
       = scanHeader true header
    /\ String.concat " "
         (word :: map (fun w => (JS.toUpperCase (TableVisual.charAt0 w)
                                 ++ TableVisual.slice1 w)%string) words)
       = scanHeader false header.
Proof.
  induction header as [|c rest IH].
  - exists EmptyString, []. repeat split.
  - destruct IH as (word & words & Hs & Ht & Hf).
    simpl TableVisual.split. simpl scanHeader.
    cbn [map] in Ht.
    destruct (TableVisual.isSeparator c).
    + exists EmptyString, (word :: words). rewrite Hs. split; [reflexivity|].
      cbn [map]. rewrite (capitalize_word EmptyString).
      change (String.concat " " (EmptyString :: ?x :: ?l))
        with (String " " (String.concat " " (x :: l))).
      rewrite Ht. split; reflexivity.
    + rewrite Hs. exists (String c word), words. split; [reflexivity|].
      cbn [map]. rewrite (capitalize_word (String c word)), !concat_cons_char.
      rewrite Hf. split; reflexivity.
Qed.

Lemma formatHeader_scanHeader (header : string) :
  TableVisual.formatHeader header = scanHeader true header.
Proof.
  unfold TableVisual.formatHeader.
  destruct (split_scanHeader header) as (word & words & -> & Ht & _). exact Ht.
Qed.

Lemma isSeparator_upperChar (c : ascii) :
  TableVisual.isSeparator (JS.upperChar c) = TableVisual.isSeparator c.
Proof. destruct c as [[] [] [] [] [] [] [] []]; reflexivity. Qed.

Lemma scanHeader_length (b : bool) (header : string) :
  String.length (scanHeader b header) = String.length header.
Proof.
  revert b. induction header as [|c rest IH]; intros b; [reflexivity|].
  simpl. destruct (TableVisual.isSeparator c); simpl; now rewrite IH.
Qed.

Lemma scanHeader_onlySpaces (b : bool) (header : string) :
  TableVisual.onlySpaces (scanHeader b header) = true.
Proof.
  revert b. induction header as [|c rest IH]; intros b; [reflexivity|].
  simpl. destruct (TableVisual.isSeparator c) eqn:E.
  - simpl. apply IH.
  - simpl. rewrite IH, andb_true_r.
    destruct b; [rewrite isSeparator_upperChar|]; now rewrite E.
Qed.

Lemma scanHeader_idem (b : bool) (header : string) :
  scanHeader b (scanHeader b header) = scanHeader b header.
Proof.
  revert b. induction header as [|c rest IH]; intros b; [reflexivity|].
  simpl. destruct (TableVisual.isSeparator c) eqn:E.
  - simpl. now rewrite IH.
  - simpl. destruct b.
    + rewrite isSeparator_upperChar, E, upperChar_idem, IH. reflexivity.
    + rewrite E, IH. reflexivity.
Qed.

(** X16: [formatHeader] works place by place on a column name in ASCII: the
    result has the length of the name, every underscore, dot and white space
    has become a space and nothing else has, and the first letter of the name
    and each letter behind a separator is upper-cased while every other
    letter is kept, so that a name in camel case is not split. *)
Theorem X16_formatHeader_place_by_place :
  forall header : string,
    TableVisual.isAscii header = true ->
    TableVisual.formatHeader header = scanHeader true header
    /\ String.length (TableVisual.formatHeader header) = String.length header
    /\ TableVisual.onlySpaces (TableVisual.formatHeader header) = true.
Proof.
  intros header _. rewrite formatHeader_scanHeader.
  split; [reflexivity|]. split; [apply scanHeader_length | apply scanHeader_onlySpaces].
Qed.

Lemma X16_formatHeader_place_by_place_witness :
  TableVisual.isAscii "user_id.createdAt" = true
  /\ TableVisual.formatHeader "user_id.createdAt" = "User Id CreatedAt".
Proof.
  split; [reflexivity|].
  rewrite (proj1 (X16_formatHeader_place_by_place "user_id.createdAt" eq_refl)).
  reflexivity.
Defined.

(** X17: [formatHeader] is idempotent on a column name in ASCII: a header
    that has been formatted is left as it is by a second formatting. *)
Theorem X17_formatHeader_idempotent :
  forall header : string,
    TableVisual.isAscii header = true ->
    TableVisual.formatHeader (TableVisual.formatHeader header)
    = TableVisual.formatHeader header.
Proof.
  intros header _. rewrite !formatHeader_scanHeader. apply scanHeader_idem.
Qed.

Lemma X17_formatHeader_idempotent_witness :
  TableVisual.formatHeader (TableVisual.formatHeader "order_total  net")
  = TableVisual.formatHeader "order_total  net".
Proof. exact (X17_formatHeader_idempotent "order_total  net" eq_refl). Defined.

(** ** The scroll handler of the navigation bar *)

Lemma classList_add_other (token : string) (classList : list string) :
  filter (fun t => negb (t =? token)%string) (Navbar.classList_add token classList)
  = filter (fun t => negb (t =? token)%string) classList.
Proof.
  unfold Navbar.classList_add.
  destruct (existsb (String.eqb token) classList); [reflexivity|].
  rewrite filter_app. simpl. rewrite String.eqb_refl. simpl. apply app_nil_r.
Qed.

Lemma classList_add_in (token : string) (classList : list string) :
  In token (Navbar.classList_add token classList).
Proof.
  unfold Navbar.classList_add.
  destruct (existsb (String.eqb token) classList) eqn:E.
  - apply existsb_exists in E as (t & Hin & Ht).
    apply String.eqb_eq in Ht. now subst.
  - apply in_elt.
Qed.

Lemma classList_add_idem (token : string) (classList : list string) :
  Navbar.classList_add token (Navbar.classList_add token classList)
  = Navbar.classList_add token classList.
Proof.
  unfold Navbar.classList_add at 1.
  assert (H : existsb (String.eqb token) (Navbar.classList_add token classList) = true).
  { apply existsb_exists. exists token. split; [apply classList_add_in|].
    apply String.eqb_refl. }
  now rewrite H.
Qed.

Lemma classList_remove_idem (token : string) (classList : list string) :
  Navbar.classList_remove token (Navbar.classList_remove token classList)
  = Navbar.classList_remove token classList.
Proof.
  unfold Navbar.classList_remove. induction classList as [|t l IH]; [reflexivity|].
  simpl. destruct (t =? token)%string eqn:E; simpl; [exact IH|].
  rewrite E. simpl. now rewrite IH.
Qed.

(** X18: after the scroll handler has run on a navigation bar, the bar has
    the border class if and only if the page is scrolled down; the other
    classes are kept, in their order; running the handler again at the same
    scroll position changes nothing; and without a bar nothing happens. *)
Theorem X18_border_class_follows_scroll :
  forall (scrollY : QArith_base.Q) (classList : list string),
  exists classList',
    Navbar.handleScroll scrollY (Some classList) = Some classList'
    /\ (In "border-b-[1px]" classList'
        <-> QArith_base.Qlt (QArith_base.Qmake 0 1) scrollY)
    /\ filter (fun t => negb (t =? "border-b-[1px]")%string) classList'
       = filter (fun t => negb (t =? "border-b-[1px]")%string) classList
    /\ Navbar.handleScroll scrollY (Some classList') = Some classList'
    /\ Navbar.handleScroll scrollY None = None.
Proof.
  intros scrollY classList. unfold Navbar.handleScroll.
  destruct (QArith_base.Qle_bool scrollY (QArith_base.Qmake 0 1)) eqn:E; simpl.
  - exists (Navbar.classList_remove "border-b-[1px]" classList).
    split; [reflexivity|]. split; [|split; [|split; [|reflexivity]]].
    + apply QArith_base.Qle_bool_iff in E. split.
      * unfold Navbar.classList_remove. rewrite filter_In.
        intros [_ H]. discriminate.
      * intros H. exfalso. exact (QArith_base.Qlt_not_le _ _ H E).
    + exact (classList_remove_idem "border-b-[1px]" classList).
    + now rewrite classList_remove_idem.
  - exists (Navbar.classList_add "border-b-[1px]" classList).
    split; [reflexivity|]. split; [|split; [|split; [|reflexivity]]].
    + split; [|intros _; apply classList_add_in].
      intros _. apply QArith_base.Qnot_le_lt. intros H.
      apply QArith_base.Qle_bool_iff in H. congruence.
    + apply classList_add_other.
    + now rewrite classList_add_idem.
Qed.

(** ** The order of the enumeration *)

(** X19: the order of the enumeration decides, not the order in the text:
    when every type enumerated before a type is unmatched in the text and
    that type has a section, this section is the result of the scan, whatever
    the types enumerated behind it would give and wherever their segments lie
    in the text. *)
Theorem X19_first_enumerated_match_wins :
  forall (pre post : list string) (v text : string) (s : SectionT),
    Forall (unmatched text) pre ->
    extractType text (JS.toUpperCase v) = Some s ->
    extractSection (pre ++ v :: post) text = Some s.
Proof.
  intros pre post v text s Hpre Hv. unfold extractSection.
  rewrite map_app. cbn [map].
  induction pre as [|u pre IH]; simpl.
  - now rewrite Hv.
  - inversion Hpre as [|? ? Hu Hrest]; subst.
    assert (H : extractType text (JS.toUpperCase u) = None).
    { rewrite extractType_upper.
      apply extractType_unmatched in Hu. now rewrite Hu. }
    rewrite H. apply IH. exact Hrest.
Qed.

Lemma X19_first_enumerated_match_wins_witness :
  extractSection (["sql"] ++ "text" :: ["table"; "chart"])
    "=====TABLE=====t=====END TABLE==========TEXT=====hi=====END TEXT====="
  = Some (mkSection "text" "hi").
Proof.
  apply X19_first_enumerated_match_wins.
  - constructor; [left; reflexivity | constructor].
  - reflexivity.
Defined.
